(** * HorovodStrategy: a shallow embedding of [lightning_horovod/strategy.py]

    The strategy is a thin adapter between a training host (Lightning's
    [ParallelStrategy] base class, the trainer, optimizers, schedulers) and a
    collective backend (Horovod).  Both collaborators live outside the
    repository, so they enter the development as interfaces ([Host],
    [Backend]); the adapter's own methods are translated statement by
    statement into a state-and-exception monad whose state carries

    - the strategy's attributes,
    - the store of the mutable Python objects the adapter updates in place
      (parameter-group dicts and scheduler objects, addressed by identity),
    - the chronological trace of the calls made to the collaborators.

    [hvd.allreduce], [hvd.allgather] and the two base-class hooks may raise;
    the other calls out of the adapter ([hvd.join], the broadcasts,
    [torch.cuda.set_device], [model.to], the factory and the context
    managers) are recorded in the trace and taken to return.  The methods
    covered are [root_device], [model_to_device], [join], [reduce],
    [all_gather], [_filter_named_parameters], [_wrap_optimizers], [setup]
    and [teardown]. *)

From Stdlib Require Import ZArith QArith String List.
From stdpp Require Import base option list gmap strings.

Local Open Scope string_scope.
Local Open Scope list_scope.
Local Open Scope Z_scope.

(** ** Python-level helpers *)

(** [l[i]] for a Python list: negative indices count from the end, anything
    out of range is an [IndexError] (here [None]). *)
Definition py_index {A : Type} (l : list A) (i : Z) : option A :=
  let n := Z.of_nat (length l) in
  if 0 <=? i then l !! Z.to_nat i
  else if 0 <=? i + n then l !! Z.to_nat (i + n)
  else None.

(** [needle in hay] for two Python strings. *)
Fixpoint py_str_contains (needle hay : string) : bool :=
  String.prefix needle hay ||
  match hay with
  | EmptyString => false
  | String _ hay' => py_str_contains needle hay'
  end.

(** Identity of a heap-allocated Python object. *)
Definition loc := nat.

(** Identity of an [nn.Parameter]. *)
Definition param := nat.

(** Identity of a process-group object passed as [group]. *)
Definition process_group := nat.

(** [torch.device]: only [.type] is inspected by the adapter. *)
Record device := Device { dev_type : string; dev_index : option Z }.

(** [nn.Module], seen through [named_parameters()]. *)
Record module := Module { named_parameters : list (string * param) }.

(** The trainer attributes read by [setup]. *)
Record Trainer := { training : bool; accumulate_grad_batches : Z }.

(** A torch optimizer object.  [class_module] and [class_name] are
    [opt.__class__.__module__] and [opt.__class__.__name__]; [param_groups]
    holds references to the parameter-group dicts; [distributed] is
    [Some (backward_passes_per_step, named_parameters)] exactly for objects
    built by [hvd.DistributedOptimizer], the only ones that offer
    [skip_synchronize()] and [synchronize()]. *)
Record optimizer := Optimizer {
  class_module : string;
  class_name : string;
  param_groups : list loc;
  distributed : option (Z * list (string * param));
}.

(** [str(opt.__class__)] *)
Definition class_repr (opt : optimizer) : string :=
  "<class '" +:+ class_module opt +:+ "." +:+ class_name opt +:+ "'>".

(** An entry of [self.optimizers]: a torch optimizer, or Lightning's
    decoration of one (which exposes the raw object as [_optimizer]). *)
Inductive host_optimizer :=
| Raw (opt : optimizer)
| LightningOptimizer (_optimizer : optimizer).

(** An [LRSchedulerConfig]: only [.scheduler] (a reference) is read. *)
Record lr_scheduler_config := { scheduler : loc }.

(** [torch.distributed.ReduceOp] members. *)
Inductive ReduceOp := SUM | AVG | PRODUCT | MIN | MAX | BAND | BOR | BXOR.

(** The [reduce_op] argument, of type [Optional[Union[ReduceOp, str]]]. *)
Inductive reduce_op_arg :=
| OpNone
| OpStr (s : string)
| OpConst (c : ReduceOp).

(** [hvd.Average] and [hvd.Sum]. *)
Inductive hvd_op := Average | Sum.

#[global] Instance ReduceOp_eq_dec : EqDecision ReduceOp.
Proof. solve_decision. Defined.

#[global] Instance reduce_op_arg_eq_dec : EqDecision reduce_op_arg.
Proof. solve_decision. Defined.

(** [x in (e1, ..., en)] for a tuple of [reduce_op] candidates. *)
Definition py_in (x : reduce_op_arg) (candidates : list reduce_op_arg) : bool :=
  existsb (fun c => bool_decide (x = c)) candidates.

(** The messages of the adapter's three [raise ValueError(...)] sites; the
    third one formats the offending [reduce_op] into the text. *)
Inductive message :=
| allreduce_subcommunicator
| allgather_subcommunicator
| unrecognized_reduce_op (op : reduce_op_arg).

(** Exceptions.  [ValueError] is what the adapter raises for an invalid
    configuration; [AssertionError], [IndexError], [KeyError] and
    [AttributeError] come from the Python operations the adapter performs;
    [RuntimeError] from [Tensor.reshape]; [CollaboratorError] stands for any
    exception raised inside the backend or the base class and propagated. *)
Inductive exn :=
| ValueError (msg : message)
| AssertionError
| IndexError
| KeyError (key : string)
| AttributeError (attr : string)
| RuntimeError
| CollaboratorError.

Inductive outcome (A : Type) :=
| Return (a : A)
| Raise (e : exn).
Arguments Return {A} a.
Arguments Raise {A} e.

Section Strategy.

(** Numbers (learning rates, tensor entries) are kept abstract: [times x w]
    is Python's [x * w] for a number [x] and the integer [w]. *)
Context {num : Type} (times : num -> Z -> num).

(** A tensor: its shape and its entries in row-major order. *)
Record tensor := Tensor { shape : list nat; data : list num }.

(** A value handed to [reduce], typed [Union[Any, Tensor]]. *)
Inductive pyval :=
| PyTensor (t : tensor)
| PyFloat (x : num)
| PyInt (n : Z)
| PyStr (s : string)
| PyNone.

(** A parameter-group dict, restricted to the two keys the adapter touches;
    [None] means the key is absent. *)
Record param_group := ParamGroup {
  pg_lr : option num;
  pg_params : option (list param);
}.

(** A scheduler object; [None] means it has no [base_lrs] attribute. *)
Record lr_scheduler := Scheduler { base_lrs : option (list num) }.

(** [contextlib.ExitStack]: the contexts entered so far, latest first.
    Every context here is some optimizer's [skip_synchronize()]. *)
Record ExitStack := { entered : list optimizer }.

(** Calls made to the collaborators, in the order they are issued. *)
Inductive event :=
| torch_cuda_set_device (d : device)
| model_to (d : device)
| hvd_join (dev : option Z)
| hvd_allreduce (v : pyval) (op : hvd_op)
| hvd_allgather (t : tensor)
| hvd_broadcast_parameters (root_rank : Z)
| hvd_broadcast_optimizer_state (opt : optimizer) (root_rank : Z)
| hvd_DistributedOptimizer (opt : optimizer) (backward_passes_per_step : Z)
    (named : list (string * param))
| ExitStack_enter
| ExitStack_exit
| skip_synchronize_enter (opt : optimizer)
| skip_synchronize_exit (opt : optimizer).

(** The attributes owned by the base class together with the store of the
    objects reachable from them.  A location absent from a store denotes an
    empty dict, respectively a scheduler without [base_lrs]. *)
Record host_state := HostState {
  parallel_devices : option (list device);
  model : option module;
  lightning_module : option module;
  optimizers : list host_optimizer;
  lr_scheduler_configs : list lr_scheduler_config;
  group_store : gmap loc param_group;
  scheduler_store : gmap loc lr_scheduler;
}.

(** The whole state: base-class part, the adapter's own [_exit_stack], and
    the trace. *)
Record state := State {
  host : host_state;
  _exit_stack : option ExitStack;
  trace : list event;
}.

(** The collective backend, as the adapter uses it.  Ranks and size are
    queried live; [allreduce] and [allgather] answer with the collective's
    result on this process, or [None] when the backend raises;
    [DistributedOptimizer] is the optimizer-decoration factory. *)
Class Backend := {
  hvd_size : Z;
  hvd_rank : Z;
  hvd_local_rank : Z;
  allreduce : pyval -> hvd_op -> option pyval;
  allgather : tensor -> option tensor;
  DistributedOptimizer :
    optimizer -> Z -> list (string * param) -> optimizer;
}.

(** The training host: the world-group constant [dist_group.WORLD] (which is
    [None] while torch.distributed has no default group) and the base-class
    hooks reached through [super()], which see and may change only the
    base-class part of the state. *)
Class Host := {
  WORLD : option process_group;
  ParallelStrategy_setup : Trainer -> host_state -> outcome unit * host_state;
  ParallelStrategy_teardown : host_state -> outcome unit * host_state;
}.

Context {B : Backend} {H : Host}.

(** ** The monad *)

Definition M (A : Type) : Type := state -> outcome A * state.

#[global] Instance M_ret : MRet M := fun A a s => (Return a, s).

#[global] Instance M_bind : MBind M := fun A B f m s =>
  match m s with
  | (Return a, s') => f a s'
  | (Raise e, s') => (Raise e, s')
  end.

Definition raise {A : Type} (e : exn) : M A := fun s => (Raise e, s).

Definition gets {A : Type} (f : state -> A) : M A := fun s => (Return (f s), s).

Definition modify (f : state -> state) : M unit := fun s => (Return tt, f s).

Definition emit (e : event) : M unit :=
  modify (fun s => State (host s) (_exit_stack s) (trace s ++ [e])).

Definition set_host (f : host_state -> host_state) : M unit :=
  modify (fun s => State (f (host s)) (_exit_stack s) (trace s)).

Definition set_exit_stack (st : option ExitStack) : M unit :=
  modify (fun s => State (host s) st (trace s)).

(** [for x in l: body(x)] *)
Fixpoint for_each {A : Type} (l : list A) (body : A -> M unit) : M unit :=
  match l with
  | [] => mret tt
  | x :: l' => body x ;; for_each l' body
  end.

(** [[f(x) for x in l]] where [f] has effects. *)
Fixpoint comprehension {A C : Type} (l : list A) (f : A -> M C) : M (list C) :=
  match l with
  | [] => mret []
  | x :: l' => y ← f x; ys ← comprehension l' f; mret (y :: ys)
  end.

(** A call into a base-class hook. *)
Definition super (hook : host_state -> outcome unit * host_state) : M unit :=
  fun s => let (r, h') := hook (host s) in (r, State h' (_exit_stack s) (trace s)).

(** ** Rank and device properties *)

Definition global_rank : Z := hvd_rank.
Definition local_rank : Z := hvd_local_rank.
Definition world_size : Z := hvd_size.

Definition root_device : M device :=
  devices ← gets (fun s => parallel_devices (host s));
  match devices with
  | None => raise AssertionError
  | Some l =>
      match py_index l local_rank with
      | Some d => mret d
      | None => raise IndexError
      end
  end.

(** [root_device] is a read-only property; the method reads it once here. *)
Definition model_to_device : M unit :=
  d ← root_device;
  (if String.eqb (dev_type d) "cuda" then emit (torch_cuda_set_device d)
   else mret tt) ;;
  m ← gets (fun s => model (host s));
  match m with
  | None => raise AssertionError
  | Some _ => emit (model_to d)
  end.

Definition join : M unit :=
  d ← root_device;
  if String.eqb (dev_type d) "cuda" then emit (hvd_join (Some local_rank))
  else emit (hvd_join None).

(** ** Collectives *)

Definition call_allreduce (v : pyval) (op : hvd_op) : M pyval :=
  emit (hvd_allreduce v op) ;;
  match allreduce v op with
  | Some r => mret r
  | None => raise CollaboratorError
  end.

Definition call_allgather (t : tensor) : M tensor :=
  emit (hvd_allgather t) ;;
  match allgather t with
  | Some r => mret r
  | None => raise CollaboratorError
  end.

Definition reduce (tensor : pyval) (group : option process_group)
    (reduce_op : reduce_op_arg) : M pyval :=
  match group with
  | Some _ => raise (ValueError allreduce_subcommunicator)
  | None =>
      op ← (if py_in reduce_op [OpNone; OpStr "avg"; OpStr "mean"]
            then mret Average
            else if py_in reduce_op [OpStr "sum"; OpConst SUM]
            then mret Sum
            else raise (ValueError (unrecognized_reduce_op reduce_op)));
      join ;;
      call_allreduce tensor op
  end.

(** [numel] of a shape, and [Tensor.reshape]. *)
Definition numel (sh : list nat) : nat := fold_right Nat.mul 1%nat sh.

Definition reshape (t : tensor) (sh : list nat) : M tensor :=
  if Nat.eqb (numel (shape t)) (numel sh) then mret (Tensor sh (data t))
  else raise RuntimeError.

Definition all_gather (result : tensor) (group : option process_group)
    (sync_grads : bool) : M tensor :=
  if bool_decide (group <> None) && bool_decide (group <> WORLD)
  then raise (ValueError allgather_subcommunicator)
  else
    result ← (if Nat.eqb (length (shape result)) 0 then reshape result [1%nat]
              else mret result);
    join ;;
    call_allgather result.

(** ** Optimizer wrapping *)

(** The dict stored at [g]; an absent location is the empty dict. *)
Definition the_group (store : gmap loc param_group) (g : loc) : param_group :=
  default (ParamGroup None None) (store !! g).

(** The scheduler stored at [l]; an absent location has no [base_lrs]. *)
Definition the_scheduler (store : gmap loc lr_scheduler) (l : loc) : lr_scheduler :=
  default (Scheduler None) (store !! l).

Definition _filter_named_parameters (model : module) (optimizer : optimizer)
    : M (list (string * param)) :=
  store ← gets (fun s => group_store (host s));
  let opt_params : gset param :=
    list_to_set
      (mjoin (map (fun group => default [] (pg_params (the_group store group)))
                  (param_groups optimizer))) in
  mret (filter (fun np => np.2 ∈ opt_params) (named_parameters model)).

Definition _wrap_optimizers (optimizers : list optimizer)
    (accumulate_grad_batches : Z) : M (list optimizer) :=
  lm ← gets (fun s => lightning_module (host s));
  match lm with
  | None => raise AssertionError
  | Some lm =>
      comprehension optimizers (fun opt =>
        if negb (py_str_contains "horovod" (class_repr opt)) then
          named ← _filter_named_parameters lm opt;
          emit (hvd_DistributedOptimizer opt accumulate_grad_batches named) ;;
          mret (DistributedOptimizer opt accumulate_grad_batches named)
        else mret opt)
  end.

(** ** Setup and teardown *)

Definition _unpack_lightning_optimizer (opt : host_optimizer) : optimizer :=
  match opt with
  | LightningOptimizer _optimizer => _optimizer
  | Raw opt => opt
  end.

Definition with_group_store (store : gmap loc param_group) (h : host_state)
    : host_state :=
  HostState (parallel_devices h) (model h) (lightning_module h) (optimizers h)
    (lr_scheduler_configs h) store (scheduler_store h).

Definition with_scheduler_store (store : gmap loc lr_scheduler) (h : host_state)
    : host_state :=
  HostState (parallel_devices h) (model h) (lightning_module h) (optimizers h)
    (lr_scheduler_configs h) (group_store h) store.

Definition with_optimizers (opts : list host_optimizer) (h : host_state)
    : host_state :=
  HostState (parallel_devices h) (model h) (lightning_module h) opts
    (lr_scheduler_configs h) (group_store h) (scheduler_store h).

(** [param_group["lr"] *= self.world_size] on the dict at [g]. *)
Definition scale_lr (g : loc) : M unit :=
  store ← gets (fun s => group_store (host s));
  let param_group := the_group store g in
  match pg_lr param_group with
  | None => raise (KeyError "lr")
  | Some lr =>
      set_host (with_group_store
        (<[g := ParamGroup (Some (times lr world_size)) (pg_params param_group)]>
           store))
  end.

(** [if hasattr(scheduler, "base_lrs"): scheduler.base_lrs = [...]] on the
    scheduler at [l]. *)
Definition scale_base_lrs (l : loc) : M unit :=
  store ← gets (fun s => scheduler_store (host s));
  match base_lrs (the_scheduler store l) with
  | Some lrs =>
      set_host (with_scheduler_store
        (<[l := Scheduler (Some (map (fun lr => times lr world_size) lrs))]>
           store))
  | None => mret tt
  end.

(** [self._exit_stack.enter_context(optimizer.skip_synchronize())] *)
Definition enter_context (opt : optimizer) : M unit :=
  st ← gets _exit_stack;
  match st with
  | None => raise (AttributeError "enter_context")
  | Some st =>
      match distributed opt with
      | None => raise (AttributeError "skip_synchronize")
      | Some _ =>
          emit (skip_synchronize_enter opt) ;;
          set_exit_stack (Some {| entered := opt :: entered st |})
      end
  end.

(** [self._exit_stack.__exit__(None, None, None)]: the contexts are left
    latest first. *)
Definition ExitStack___exit__ (st : ExitStack) : M unit :=
  emit ExitStack_exit ;;
  for_each (entered st) (fun opt => emit (skip_synchronize_exit opt)).

Definition setup (trainer : Trainer) : M unit :=
  model_to_device ;;
  super (ParallelStrategy_setup trainer) ;;
  set_exit_stack (Some {| entered := [] |}) ;;
  emit ExitStack_enter ;;
  if negb (training trainer) then mret tt
  else
    optimizers ← gets (fun s => optimizers (host s));
    let optimizers := map _unpack_lightning_optimizer optimizers in
    for_each optimizers (fun optimizer =>
      for_each (param_groups optimizer) scale_lr) ;;
    lr_scheduler_configs ← gets (fun s => lr_scheduler_configs (host s));
    for_each lr_scheduler_configs (fun config =>
      scale_base_lrs (scheduler config)) ;;
    lm ← gets (fun s => lightning_module (host s));
    match lm with
    | None => raise AssertionError
    | Some _ =>
        emit (hvd_broadcast_parameters 0) ;;
        for_each optimizers (fun optimizer =>
          emit (hvd_broadcast_optimizer_state optimizer 0)) ;;
        wrapped ← _wrap_optimizers optimizers (accumulate_grad_batches trainer);
        set_host (with_optimizers (map Raw wrapped)) ;;
        (* the loop reads back [self.optimizers], assigned just above *)
        for_each wrapped enter_context
    end.

(** An [ExitStack] object is always truthy, so [if self._exit_stack:] tests
    for [None]. *)
Definition teardown : M unit :=
  st ← gets _exit_stack;
  match st with
  | Some st => ExitStack___exit__ st ;; set_exit_stack None
  | None => mret tt
  end ;;
  join ;;
  super ParallelStrategy_teardown.

End Strategy.

Arguments Backend num : clear implicits.
Arguments Host num : clear implicits.

(** ** Vocabulary of the statements *)

Section Vocabulary.

Context {num : Type} (times : num -> Z -> num).
Context {B : Backend num} {H : Host num}.

(** The test [_wrap_optimizers] applies to decide that an optimizer is
    already backend-native. *)
Definition backend_native (opt : optimizer) : bool :=
  py_str_contains "horovod" (class_repr opt).

(** The references to parameter-group dicts, in the order the scaling loop
    of [setup] visits them. *)
Definition visited_groups (h : host_state (num:=num)) : list loc :=
  mjoin (map (fun o => param_groups (_unpack_lightning_optimizer o))
             (optimizers h)).

(** The references to scheduler objects, in the order [setup] visits them. *)
Definition visited_schedulers (h : host_state (num:=num)) : list loc :=
  map scheduler (lr_scheduler_configs h).

(** The dict at [g] has an ["lr"] key. *)
Definition has_lr (store : gmap loc (param_group (num:=num))) (g : loc) : Prop :=
  is_Some (pg_lr (the_group store g)).

(** The conditions under which the training branch of [setup] runs to its
    end on the base-class state [h]: every visited dict has an ["lr"] key,
    a Lightning module is attached, and an optimizer that passes the
    class-name test really offers [skip_synchronize()]. *)
Definition ready_to_train (h : host_state (num:=num)) : bool :=
  forallb (fun g => bool_decide (is_Some (pg_lr (the_group (group_store h) g))))
          (visited_groups h)
  && bool_decide (is_Some (lightning_module h))
  && forallb (fun o =>
       let opt := _unpack_lightning_optimizer o in
       implb (backend_native opt) (bool_decide (is_Some (distributed opt))))
     (optimizers h).

(** What the adapter relies on from [hvd.DistributedOptimizer]: the object
    it returns belongs to a class of a [horovod] module and offers
    [skip_synchronize()]. *)
Class HorovodFactory : Prop := {
  factory_native : forall opt n named,
    backend_native (DistributedOptimizer opt n named) = true;
  factory_distributed : forall opt n named,
    is_Some (distributed (DistributedOptimizer opt n named));
}.

(** What [join] hands to [hvd.join] when the root device is [d]. *)
Definition join_argument (d : device) : option Z :=
  if String.eqb (dev_type d) "cuda" then Some local_rank else None.

(** The state once that join has been issued. *)
Definition joined (d : device) (s : state (num:=num)) : state :=
  State (host s) (_exit_stack s) (trace s ++ [hvd_join (join_argument d)]).

(** The tokens [reduce] recognises as [reduce_op]. *)
Definition averaging_tokens : list reduce_op_arg :=
  [OpNone; OpStr "avg"; OpStr "mean"].

Definition summing_tokens : list reduce_op_arg := [OpStr "sum"; OpConst SUM].

Definition recognized_tokens : list reduce_op_arg :=
  averaging_tokens ++ summing_tokens.

(** The backend operation [reduce] selects for a recognised token. *)
Definition selected_op (op : reduce_op_arg) : hvd_op :=
  if py_in op averaging_tokens then Average else Sum.

(** The outcome of a call into the backend that answers [r]. *)
Definition answered {A : Type} (r : option A) : outcome A :=
  match r with
  | Some a => Return a
  | None => Raise CollaboratorError
  end.

(** [hvd.allgather] across the group: the tensors passed by the processes
    are concatenated along the first dimension, in ascending rank order. *)
Definition concat_ranks (contributions : list (tensor (num:=num))) : tensor :=
  Tensor
    (match contributions with
     | [] => [0%nat]
     | t :: _ =>
         fold_right Nat.add 0%nat (map (fun c => hd 0%nat (shape c)) contributions)
         :: tl (shape t)
     end)
    (mjoin (map data contributions)).

(** One element of the comprehension in [_wrap_optimizers]. *)
Definition wrap_one (lm : module) (accumulate_grad_batches : Z)
    (opt : optimizer) : M (num:=num) optimizer :=
  if negb (py_str_contains "horovod" (class_repr opt)) then
    named ← _filter_named_parameters lm opt;
    emit (hvd_DistributedOptimizer opt accumulate_grad_batches named) ;;
    mret (DistributedOptimizer opt accumulate_grad_batches named)
  else mret opt.

(** [setup] from the point where the trainer is known to be training. *)
Definition training_branch (trainer : Trainer) : M (num:=num) unit :=
  optimizers ← gets (fun s => optimizers (host s));
  let optimizers := map _unpack_lightning_optimizer optimizers in
  for_each optimizers (fun optimizer =>
    for_each (param_groups optimizer) (scale_lr times)) ;;
  lr_scheduler_configs ← gets (fun s => lr_scheduler_configs (host s));
  for_each lr_scheduler_configs (fun config =>
    scale_base_lrs times (scheduler config)) ;;
  lm ← gets (fun s => lightning_module (host s));
  match lm with
  | None => raise AssertionError
  | Some _ =>
      emit (hvd_broadcast_parameters 0) ;;
      for_each optimizers (fun optimizer =>
        emit (hvd_broadcast_optimizer_state optimizer 0)) ;;
      wrapped ← _wrap_optimizers optimizers (accumulate_grad_batches trainer);
      set_host (with_optimizers (map Raw wrapped)) ;;
      for_each wrapped enter_context
  end.

(** The dict at [g] after one pass of the scaling loop over it. *)
Definition scale_group (store : gmap loc param_group) (g : loc)
    : gmap loc param_group :=
  match pg_lr (the_group store g) with
  | Some lr =>
      <[g := ParamGroup (Some (times lr world_size))
                        (pg_params (the_group store g))]> store
  | None => store
  end.

(** The scheduler at [l] after one pass of the adjustment loop over it. *)
Definition scale_scheduler (store : gmap loc lr_scheduler) (l : loc)
    : gmap loc lr_scheduler :=
  match base_lrs (the_scheduler store l) with
  | Some lrs =>
      <[l := Scheduler (Some (map (fun lr => times lr world_size) lrs))]> store
  | None => store
  end.

(** How an element of the list returned by [_wrap_optimizers] relates to
    the optimizer it stands for: the same object when that one passes the
    class-name test, a product of the factory otherwise. *)
Definition wrapped_from (accumulate_grad_batches : Z) (opt w : optimizer)
    : Prop :=
  (backend_native opt = true /\ w = opt) \/
  (backend_native opt = false /\
   exists named, w = DistributedOptimizer opt accumulate_grad_batches named).

(** A computation keeps [P] when [P] survives it, whatever its outcome. *)
Definition keeps {A : Type} (P : state (num:=num) -> Prop)
    (m : M (num:=num) A) : Prop :=
  forall s, P s -> P (snd (m s)).

(** Number of [ExitStack.__exit__] calls in a trace. *)
Definition exit_calls (tr : list (event (num:=num))) : nat :=
  length (List.filter
            (fun e => match e with ExitStack_exit => true | _ => false end) tr).

(** The optimizers handed to [hvd.DistributedOptimizer] in a trace, one
    entry per call, in call order: every entry stands for one wrapper made
    around that optimizer. *)
Definition wrapped_bases (tr : list (event (num:=num))) : list optimizer :=
  mjoin (map (fun e => match e with
                       | hvd_DistributedOptimizer opt _ _ => [opt]
                       | _ => []
                       end) tr).

End Vocabulary.

(** ** A concrete world

    Rational learning rates, a Horovod group seen from one of its processes,
    and a host whose base-class hooks leave the state alone (the optimizers
    are attached already). *)

Module Demo.

Definition Qtimes (x : Q) (w : Z) : Q := Qred (x * inject_Z w).

(** The backend of process [rank] in a group of [size] processes, every
    process holding the same tensor when it reduces.  The allreduce of a
    tensor answers with that tensor for [Average] and with its entries
    multiplied by [size] for [Sum], and rejects anything that is not a
    tensor; the allgather concatenates what the processes pass, the others
    passing [peers]. *)
Definition horovod (size rank local : Z) (peers : list (tensor (num:=Q)))
    : Backend Q := {|
  hvd_size := size;
  hvd_rank := rank;
  hvd_local_rank := local;
  allreduce v op :=
    match v, op with
    | PyTensor _, Average => Some v
    | PyTensor t, Sum =>
        Some (PyTensor (Tensor (shape t) (map (fun x => Qtimes x size) (data t))))
    | _, _ => None
    end;
  allgather x := Some (concat_ranks (<[Z.to_nat rank := x]> peers));
  DistributedOptimizer opt n named :=
    Optimizer "horovod.torch.optimizer" (class_name opt) (param_groups opt)
      (Some (n, named));
|}.

Definition lightning (world : option process_group) : Host Q := {|
  WORLD := world;
  ParallelStrategy_setup := fun _ h => (Return tt, h);
  ParallelStrategy_teardown := fun h => (Return tt, h);
|}.

Definition cuda (i : Z) : device := Device "cuda" (Some i).

Definition net : module := Module [("weight", 0%nat); ("bias", 1%nat)].

Definition sgd : optimizer := Optimizer "torch.optim.sgd" "SGD" [1%nat] None.

(** A strategy as its constructor leaves it when called with the default
    arguments. *)
Definition constructed : state (num:=Q) :=
  State (HostState None None None [] [] ∅ ∅) None [].

(** A configured strategy: SGD over one parameter group with learning rate
    0.1, and a scheduler with base rate 0.1. *)
Definition configured_host (opts : list host_optimizer)
    (configs : list lr_scheduler_config) : host_state (num:=Q) :=
  HostState (Some [cuda 0; cuda 1]) (Some net) (Some net) opts configs
    {[ 1%nat := ParamGroup (Some (1 # 10)) (Some [0%nat; 1%nat]) ]}
    {[ 10%nat := Scheduler (Some [1 # 10]) ]}.

Definition configured : state (num:=Q) :=
  State (configured_host [Raw sgd] [{| scheduler := 10%nat |}]) None [].

(** The same optimizer listed twice. *)
Definition repeated_optimizer : state (num:=Q) :=
  State (configured_host [Raw sgd; Raw sgd] [{| scheduler := 10%nat |}]) None [].

(** The same scheduler configured twice. *)
Definition repeated_scheduler : state (num:=Q) :=
  State (configured_host [Raw sgd]
           [{| scheduler := 10%nat |}; {| scheduler := 10%nat |}]) None [].

Definition fit : Trainer := {| training := true; accumulate_grad_batches := 1 |}.
Definition validate : Trainer := {| training := false; accumulate_grad_batches := 1 |}.

Definition scalar (x : Q) : tensor := Tensor [] [x].

(** Process 1 of a group of four, on the second GPU of its machine. *)
Definition worker : Backend Q := horovod 4 1 1 [].

(** A host on which torch.distributed has a default group, object 0. *)
Definition trainer_host : Host Q := lightning (Some 0%nat).

(** The scalars held by the three processes of a smaller group, and the
    backend of its process 1 while they are gathered. *)
Definition held : list (tensor (num:=Q)) :=
  [scalar (1 # 2); scalar (5 # 2); scalar (3 # 2)].

Definition gatherer : Backend Q :=
  horovod 3 1 1 (map (fun c => Tensor [1%nat] (data c)) held).

End Demo.

(** ** The remaining hooks

    [barrier] and [post_backward] reach two more pieces of the
    collaborators' code: the query [_distributed_available()] of
    torch.distributed and the method call [optimizer.synchronize()]. *)

Section Hooks.

Context {num : Type} {B : Backend num} {H : Host num}.

Variable _distributed_available : bool.
Variable synchronize : host_optimizer -> M (num:=num) unit.

(** The arguments of [barrier] are ignored. *)
Definition barrier : M (num:=num) unit :=
  if _distributed_available then join else mret tt.

Definition post_backward (closure_loss : tensor (num:=num)) : M (num:=num) unit :=
  optimizers ← gets (fun s => optimizers (host s));
  for_each optimizers synchronize.

End Hooks.

(** ** More vocabulary *)

Section Outcomes.

Context {num : Type} (times : num -> Z -> num).
Context {B : Backend num} {H : Host num}.

(** The parameters an optimizer updates: those listed under ["params"] in
    its parameter groups. *)
Definition owned_parameters (store : gmap loc (param_group (num:=num)))
    (opt : optimizer) : gset param :=
  list_to_set
    (mjoin (map (fun group => default [] (pg_params (the_group store group)))
                (param_groups opt))).

(** The model's named parameters that an optimizer updates. *)
Definition owned_named_parameters (store : gmap loc (param_group (num:=num)))
    (lm : module) (opt : optimizer) : list (string * param) :=
  filter (fun np => np.2 ∈ owned_parameters store opt) (named_parameters lm).

(** What the wrap step makes of one optimizer, and the factory call it
    issues for it. *)
Definition wrapped (store : gmap loc (param_group (num:=num))) (lm : module)
    (n : Z) (opt : optimizer) : optimizer :=
  if backend_native opt then opt
  else DistributedOptimizer opt n (owned_named_parameters store lm opt).

Definition factory_calls (store : gmap loc (param_group (num:=num)))
    (lm : module) (n : Z) (opts : list optimizer) : list (event (num:=num)) :=
  mjoin (map (fun opt =>
                if backend_native opt then []
                else [hvd_DistributedOptimizer opt n
                        (owned_named_parameters store lm opt)])
             opts).

(** The optimizers [setup] works on. *)
Definition unwrapped (h : host_state (num:=num)) : list optimizer :=
  map _unpack_lightning_optimizer (optimizers h).

(** The calls [model_to_device] makes for the root device [d]. *)
Definition placement (d : device) : list (event (num:=num)) :=
  (if String.eqb (dev_type d) "cuda" then [torch_cuda_set_device d] else [])
  ++ [model_to d].

(** The stores once both scaling loops of [setup] have run over [h]. *)
Definition scaled_groups (h : host_state (num:=num)) : gmap loc param_group :=
  fold_left (scale_group times) (visited_groups h) (group_store h).

Definition scaled_schedulers (h : host_state (num:=num)) : gmap loc lr_scheduler :=
  fold_left (scale_scheduler times) (visited_schedulers h) (scheduler_store h).

Definition scaled (h : host_state (num:=num)) : host_state :=
  with_scheduler_store (scaled_schedulers h) (with_group_store (scaled_groups h) h).

(** The optimizers a completed training [setup] installs. *)
Definition installed (tr : Trainer) (lm : module) (h : host_state (num:=num))
    : list optimizer :=
  map (wrapped (scaled_groups h) lm (accumulate_grad_batches tr)) (unwrapped h).

(** The calls a completed training [setup] makes after the base-class
    setup, in order. *)
Definition training_calls (tr : Trainer) (lm : module)
    (h : host_state (num:=num)) : list (event (num:=num)) :=
  [ExitStack_enter; hvd_broadcast_parameters 0]
  ++ map (fun opt => hvd_broadcast_optimizer_state opt 0) (unwrapped h)
  ++ factory_calls (scaled_groups h) lm (accumulate_grad_batches tr) (unwrapped h)
  ++ map skip_synchronize_enter (installed tr lm h).

(** [setup] gets as far as its training test: the trainer is training, the
    root device is [d], a model is attached, and the base-class setup
    returns normally with state [h]. *)
Definition reaches_training (tr : Trainer) (s : state (num:=num)) (d : device)
    (h : host_state (num:=num)) : Prop :=
  training tr = true /\
  root_device s = (Return d, s) /\
  is_Some (model (host s)) /\
  ParallelStrategy_setup tr (host s) = (Return tt, h).

(** The state in which [setup] then takes the training test. *)
Definition at_training_test (s : state (num:=num)) (d : device)
    (h : host_state (num:=num)) : state :=
  State h (Some {| entered := [] |}) (trace s ++ placement d ++ [ExitStack_enter]).

(** Calls that stay on the process: device placement and the creation of
    the exit stack. *)
Definition stays_local (e : event (num:=num)) : Prop :=
  match e with
  | torch_cuda_set_device _ | model_to _ | ExitStack_enter => True
  | _ => False
  end.

(** Calls that leave a context: the exit of the stack and of a
    [skip_synchronize()] context. *)
Definition leaves_context (e : event (num:=num)) : Prop :=
  match e with
  | ExitStack_exit | skip_synchronize_exit _ => True
  | _ => False
  end.

(** How often a loop over [ls] reaches the object at [l]. *)
Definition visits (l : loc) (ls : list loc) : nat :=
  length (filter (fun x => x = l) ls).

(** A learning rate after [k] passes of [lr *= world_size]. *)
Definition scaled_lr (k : nat) (lr : num) : num :=
  Nat.iter k (fun x => times x world_size) lr.

End Outcomes.

(** ** More scenarios *)

Module Scenarios.

Import Demo.

(** Process 3 of four, on a machine that lists only two devices. *)
Definition stray : Backend Q := horovod 4 3 3 [].

(** Devices chosen, no model attached yet. *)
Definition without_model : state (num:=Q) :=
  State (HostState (Some [cuda 0; cuda 1]) None None [] [] ∅ ∅) None [].

(** The configured strategy with a parameter group that has no ["lr"]
    key. *)
Definition without_lr : state (num:=Q) :=
  State (HostState (Some [cuda 0; cuda 1]) (Some net) (Some net) [Raw sgd]
           [{| scheduler := 10%nat |}]
           {[ 1%nat := ParamGroup None (Some [0%nat; 1%nat]) ]}
           {[ 10%nat := Scheduler (Some [1 # 10]) ]})
    None [].

(** The configured strategy around a model that is no Lightning module. *)
Definition without_module : state (num:=Q) :=
  State (HostState (Some [cuda 0; cuda 1]) (Some net) None [Raw sgd]
           [{| scheduler := 10%nat |}]
           {[ 1%nat := ParamGroup (Some (1 # 10)) (Some [0%nat; 1%nat]) ]}
           {[ 10%nat := Scheduler (Some [1 # 10]) ]})
    None [].

(** An optimizer of a class that lives in a module named after horovod and
    is no Horovod optimizer. *)
Definition lookalike : optimizer :=
  Optimizer "horovod_contrib.optim" "Lamb" [1%nat] None.

Definition with_lookalike : state (num:=Q) :=
  State (configured_host [Raw sgd; Raw lookalike] [{| scheduler := 10%nat |}])
    None [].

(** A strategy in the middle of training: two Horovod optimizers, the
    [skip_synchronize()] context of each entered on the exit stack. *)
Definition hvd_sgd : optimizer :=
  Optimizer "horovod.torch.optimizer" "SGD" [1%nat] (Some (1, [])).

Definition hvd_adam : optimizer :=
  Optimizer "horovod.torch.optimizer" "Adam" [1%nat] (Some (1, [])).

Definition in_training : state (num:=Q) :=
  State (configured_host [Raw hvd_sgd; Raw hvd_adam] [])
    (Some {| entered := [hvd_adam; hvd_sgd] |}) [].

(** A host whose base-class setup raises. *)
Definition failing_host : Host Q := {|
  WORLD := None;
  ParallelStrategy_setup := fun _ h => (Raise RuntimeError, h);
  ParallelStrategy_teardown := fun h => (Return tt, h);
|}.

(** [optimizer.synchronize()]: a method of Horovod optimizers, which other
    optimizers lack. *)
Definition hvd_synchronize (o : host_optimizer) : M (num:=Q) unit :=
  match distributed (_unpack_lightning_optimizer o) with
  | Some _ => mret tt
  | None => raise (AttributeError "synchronize")
  end.

End Scenarios.

(** * Proofs *)

Section Proofs.

Context {num : Type} (times : num -> Z -> num).
Context {B : Backend num} {H : Host num}.

Implicit Types (s : state (num:=num)) (h : host_state (num:=num)).
Implicit Types (P : state (num:=num) -> Prop).

Local Abbreviation M := (M (num:=num)).

(** ** Running the monad *)

Lemma run_bind {A C : Type} (m : M A) (f : A -> M C) s :
  (m ≫= f) s =
  match m s with
  | (Return a, s') => f a s'
  | (Raise e, s') => (Raise e, s')
  end.
Proof. reflexivity. Qed.

Lemma run_ret {A : Type} (a : A) s : (mret a : M A) s = (Return a, s).
Proof. reflexivity. Qed.

Lemma for_each_app {A : Type} (l1 l2 : list A) (body : A -> M unit) s :
  for_each (l1 ++ l2) body s = (for_each l1 body ;; for_each l2 body) s.
Proof.
  revert s. induction l1 as [|x l1 IH]; intros s; [reflexivity|].
  simpl. rewrite !run_bind. destruct (body x s) as [[[]|e] s1]; [|reflexivity].
  rewrite IH. reflexivity.
Qed.

(** ** Devices and the join *)

Lemma root_device_pure s : snd (root_device s) = s.
Proof.
  unfold root_device. rewrite run_bind. simpl.
  destruct (parallel_devices (host s)) as [l|]; [|reflexivity].
  destruct (py_index l local_rank); reflexivity.
Qed.

Lemma join_bound s d :
  root_device s = (Return d, s) ->
  join s = (Return tt, joined d s).
Proof.
  intros E. unfold join, joined, join_argument. rewrite run_bind, E.
  destruct (String.eqb (dev_type d) "cuda"); reflexivity.
Qed.

Lemma join_outcome s :
  (exists d, root_device s = (Return d, s)) \/
  (join s = (Raise AssertionError, s)) \/ (join s = (Raise IndexError, s)).
Proof.
  unfold join, root_device. rewrite !run_bind. simpl.
  destruct (parallel_devices (host s)) as [l|]; [|right; left; reflexivity].
  destruct (py_index l local_rank) as [d|]; [left; eauto|right; right; reflexivity].
Qed.

(** ** Group and reduce-op checks *)

Lemma py_in_elem_of (x : reduce_op_arg) (l : list reduce_op_arg) :
  py_in x l = true <-> x ∈ l.
Proof.
  unfold py_in. rewrite existsb_exists. split.
  - intros (c & Hc & E). apply bool_decide_eq_true in E. subst.
    by apply list_elem_of_In.
  - intros Hx. exists x. split; [by apply list_elem_of_In|].
    by apply bool_decide_eq_true.
Qed.

Lemma py_in_not_elem_of (x : reduce_op_arg) (l : list reduce_op_arg) :
  py_in x l = false <-> x ∉ l.
Proof.
  rewrite <- py_in_elem_of. destruct (py_in x l); split; congruence.
Qed.

Lemma call_allreduce_run (v : pyval) (op : hvd_op) s :
  call_allreduce v op s =
  (answered (allreduce v op),
   State (host s) (_exit_stack s) (trace s ++ [hvd_allreduce v op])).
Proof.
  unfold call_allreduce. rewrite run_bind. simpl.
  destruct (allreduce v op); reflexivity.
Qed.

Lemma call_allgather_run (t : tensor) s :
  call_allgather t s =
  (answered (allgather t),
   State (host s) (_exit_stack s) (trace s ++ [hvd_allgather t])).
Proof.
  unfold call_allgather. rewrite run_bind. simpl.
  destruct (allgather t); reflexivity.
Qed.

Lemma answered_not_ValueError {A : Type} (r : option A) msg :
  answered r <> Raise (ValueError msg).
Proof. destruct r; discriminate. Qed.

(** Once past its checks, [reduce] raises no [ValueError] of its own. *)
Lemma join_then_allreduce_not_ValueError (v : pyval) (op : hvd_op) s msg :
  fst ((join ;; call_allreduce v op) s) <> Raise (ValueError msg).
Proof.
  rewrite run_bind.
  destruct (join_outcome s) as [[d E]|[E|E]].
  - rewrite (join_bound _ _ E), call_allreduce_run. simpl.
    apply answered_not_ValueError.
  - rewrite E. discriminate.
  - rewrite E. discriminate.
Qed.

Lemma reduce_averaging (v : pyval) (op : reduce_op_arg) s :
  op ∈ averaging_tokens ->
  reduce v None op s = (join ;; call_allreduce v Average) s.
Proof.
  intros Hop. apply py_in_elem_of in Hop. unfold reduce.
  fold averaging_tokens. rewrite Hop. reflexivity.
Qed.

Lemma reduce_summing (v : pyval) (op : reduce_op_arg) s :
  op ∈ summing_tokens ->
  reduce v None op s = (join ;; call_allreduce v Sum) s.
Proof.
  intros Hop. unfold summing_tokens in Hop.
  apply elem_of_cons in Hop as [->|Hop]; [reflexivity|].
  apply elem_of_cons in Hop as [->|Hop]; [reflexivity|].
  by apply elem_of_nil in Hop.
Qed.

Lemma reduce_unrecognized (v : pyval) (op : reduce_op_arg) s :
  op ∉ recognized_tokens ->
  reduce v None op s = (Raise (ValueError (unrecognized_reduce_op op)), s).
Proof.
  intros Hop. unfold reduce. fold averaging_tokens summing_tokens.
  unfold recognized_tokens in Hop.
  rewrite not_elem_of_app in Hop. destruct Hop as [Ha Hs].
  apply py_in_not_elem_of in Ha, Hs. rewrite Ha, Hs. reflexivity.
Qed.

(** C3.  For every group value that is neither [None] nor the world group,
    [reduce] and [all_gather] both raise the invalid-configuration error
    ([ValueError]) and leave the state, hence the trace of backend calls,
    exactly as it was: no join and no collective has been issued. *)
Theorem subgroup_rejected_before_any_collective
    (g : option process_group) (v : pyval) (t : tensor)
    (op : reduce_op_arg) (sync_grads : bool) s :
  g <> None -> g <> WORLD ->
  reduce v g op s = (Raise (ValueError allreduce_subcommunicator), s) /\
  all_gather t g sync_grads s = (Raise (ValueError allgather_subcommunicator), s).
Proof.
  intros Hnone Hworld. split.
  - unfold reduce. destruct g; [reflexivity|congruence].
  - unfold all_gather.
    rewrite (bool_decide_eq_true_2 _ Hnone), (bool_decide_eq_true_2 _ Hworld).
    reflexivity.
Qed.

(** [all_gather] lets [None] and the world group through its check. *)
Lemma all_gather_accepted (t : tensor) (g : option process_group)
    (sync_grads : bool) s :
  g = None \/ g = WORLD ->
  all_gather t g sync_grads s =
  (result ← (if Nat.eqb (length (shape t)) 0 then reshape t [1%nat]
             else mret t);
   join ;; call_allgather result) s.
Proof.
  intros Hg. unfold all_gather.
  destruct (bool_decide (g <> None)) eqn:E1; [|reflexivity].
  destruct (bool_decide (g <> WORLD)) eqn:E2; [|reflexivity].
  apply bool_decide_eq_true in E1, E2. destruct Hg; congruence.
Qed.

Lemma all_gather_accepted_not_ValueError (t : tensor)
    (g : option process_group) (sync_grads : bool) s msg :
  g = None \/ g = WORLD ->
  fst (all_gather t g sync_grads s) <> Raise (ValueError msg).
Proof.
  intros Hg. rewrite (all_gather_accepted _ _ _ _ Hg), run_bind.
  assert (Hrest : forall x s1,
    fst ((join ;; call_allgather x) s1) <> Raise (ValueError msg)).
  { intros x s1. rewrite run_bind.
    destruct (join_outcome s1) as [[d E]|[E|E]].
    - rewrite (join_bound _ _ E), call_allgather_run. simpl.
      apply answered_not_ValueError.
    - rewrite E. discriminate.
    - rewrite E. discriminate. }
  destruct (Nat.eqb (length (shape t)) 0).
  - unfold reshape. destruct (Nat.eqb _ _); [apply Hrest|discriminate].
  - apply Hrest.
Qed.

(** C9.  The two collectives reject groups differently.  [reduce] raises
    the invalid-configuration error for every group object, the world group
    included whenever it is one, and only [None] passes; [all_gather] raises
    it neither for [None] nor for the world-group constant. *)
Theorem group_checks_differ (v : pyval) (t : tensor) (op : reduce_op_arg)
    (sync_grads : bool) s :
  (forall g, g <> None ->
     reduce v g op s = (Raise (ValueError allreduce_subcommunicator), s)) /\
  (WORLD <> None ->
     reduce v WORLD op s = (Raise (ValueError allreduce_subcommunicator), s)) /\
  (forall msg, fst (all_gather t None sync_grads s) <> Raise (ValueError msg)) /\
  (forall msg, fst (all_gather t WORLD sync_grads s) <> Raise (ValueError msg)).
Proof.
  assert (Hr : forall g, g <> None ->
    reduce v g op s = (Raise (ValueError allreduce_subcommunicator), s)).
  { intros g Hg. unfold reduce. destruct g; [reflexivity|congruence]. }
  split; [exact Hr|]. split; [apply Hr|].
  split; intros msg; apply all_gather_accepted_not_ValueError; auto.
Qed.

(** C4, as amended.  With [group] left at [None], [reduce] raises the
    invalid-configuration error exactly when [reduce_op] is outside
    [{None, "avg", "mean", "sum", ReduceOp.SUM}]; whatever the group, a
    [reduce_op] outside that set makes it raise the error; [None], ["avg"]
    and ["mean"] select [hvd.Average], ["sum"] and [ReduceOp.SUM] select
    [hvd.Sum]. *)
Theorem reduce_op_recognition (v : pyval) (op : reduce_op_arg) s :
  ((exists msg, fst (reduce v None op s) = Raise (ValueError msg)) <->
     op ∉ recognized_tokens) /\
  (forall g, op ∉ recognized_tokens ->
     exists msg, reduce v g op s = (Raise (ValueError msg), s)) /\
  (op ∈ averaging_tokens ->
     reduce v None op s = (join ;; call_allreduce v Average) s) /\
  (op ∈ summing_tokens ->
     reduce v None op s = (join ;; call_allreduce v Sum) s).
Proof.
  split; [|split; [|split]].
  - split.
    + intros [msg Hmsg] Hop. apply elem_of_app in Hop as [Ha|Hs].
      * rewrite (reduce_averaging _ _ _ Ha) in Hmsg.
        by eapply join_then_allreduce_not_ValueError.
      * rewrite (reduce_summing _ _ _ Hs) in Hmsg.
        by eapply join_then_allreduce_not_ValueError.
    + intros Hop. eexists. rewrite (reduce_unrecognized _ _ _ Hop). reflexivity.
  - intros [p|] Hop.
    + eexists. reflexivity.
    + eexists. apply reduce_unrecognized, Hop.
  - apply reduce_averaging.
  - apply reduce_summing.
Qed.

(** C5.  [reduce] has no branch for values that are not tensors: with the
    default group and a recognised [reduce_op] it joins and hands the value,
    whatever it is, to [hvd.allreduce], and its result is the backend's
    answer, not the input. *)
Theorem reduce_defers_to_backend (v : pyval) (op : reduce_op_arg) s d :
  root_device s = (Return d, s) ->
  op ∈ recognized_tokens ->
  reduce v None op s =
  (answered (allreduce v (selected_op op)),
   State (host s) (_exit_stack s)
     (trace s ++ [hvd_join (join_argument d);
                  hvd_allreduce v (selected_op op)])).
Proof.
  intros Hd Hop.
  assert (E : reduce v None op s = (join ;; call_allreduce v (selected_op op)) s).
  { unfold selected_op. apply elem_of_app in Hop as [Ha|Hs].
    - rewrite (reduce_averaging _ _ _ Ha).
      apply py_in_elem_of in Ha. by rewrite Ha.
    - rewrite (reduce_summing _ _ _ Hs).
      destruct (py_in op averaging_tokens) eqn:Ha; [|reflexivity].
      exfalso. apply py_in_elem_of in Ha.
      unfold summing_tokens in Hs. unfold averaging_tokens in Ha.
      repeat (apply elem_of_cons in Hs as [->|Hs];
              [repeat (apply elem_of_cons in Ha as [Ha|Ha];
                       [discriminate Ha|]);
               by apply elem_of_nil in Ha|]).
      by apply elem_of_nil in Hs. }
  rewrite E, run_bind, (join_bound _ _ Hd), call_allreduce_run.
  unfold joined. simpl. by rewrite <- app_assoc.
Qed.

(** ** Teardown *)

(** C2, as amended.  When [setup] never ran ([_exit_stack] is still
    [None]) and [parallel_devices] is a list that the local rank indexes,
    [teardown] raises nothing of its own: it issues the final [hvd.join]
    and then hands over to the base-class teardown, whose outcome is its
    outcome. *)
Theorem teardown_without_setup s d :
  _exit_stack s = None ->
  root_device s = (Return d, s) ->
  teardown s =
  super ParallelStrategy_teardown
    (State (host s) None (trace s ++ [hvd_join (join_argument d)])).
Proof.
  intros Hstack Hd.
  unfold teardown. rewrite run_bind. simpl. rewrite Hstack.
  simpl. rewrite run_bind, run_ret, run_bind, (join_bound _ _ Hd).
  unfold joined. rewrite Hstack. reflexivity.
Qed.

(** ** What a computation keeps *)

Lemma keeps_ret {A : Type} P (a : A) : keeps P (mret a : M A).
Proof. intros s Hs. exact Hs. Qed.

Lemma keeps_raise {A : Type} P e : keeps P (raise e : M A).
Proof. intros s Hs. exact Hs. Qed.

Lemma keeps_gets {A : Type} P (f : state -> A) : keeps P (gets f).
Proof. intros s Hs. exact Hs. Qed.

Lemma keeps_modify P (f : state -> state) :
  (forall s, P s -> P (f s)) -> keeps P (modify f).
Proof. intros Hf s Hs. apply Hf, Hs. Qed.

Lemma keeps_bind {A C : Type} P (m : M A) (f : A -> M C) :
  keeps P m -> (forall a, keeps P (f a)) -> keeps P (m ≫= f).
Proof.
  intros Hm Hf s Hs. rewrite run_bind. specialize (Hm s Hs).
  destruct (m s) as [[a|e] s1]; simpl in *; [by apply Hf|done].
Qed.

Lemma keeps_for_each {A : Type} P (l : list A) (body : A -> M unit) :
  (forall x, keeps P (body x)) -> keeps P (for_each l body).
Proof.
  intros Hb. induction l as [|x l IH]; simpl.
  - apply keeps_ret.
  - apply keeps_bind; [apply Hb|intros _; apply IH].
Qed.

Lemma keeps_comprehension {A C : Type} P (l : list A) (f : A -> M C) :
  (forall x, keeps P (f x)) -> keeps P (comprehension l f).
Proof.
  intros Hf. induction l as [|x l IH]; simpl.
  - apply keeps_ret.
  - apply keeps_bind; [apply Hf|intros y].
    apply keeps_bind; [apply IH|intros ys; apply keeps_ret].
Qed.

Lemma keeps_super P (hook : host_state -> outcome unit * host_state) :
  (forall s h', P s -> P (State h' (_exit_stack s) (trace s))) ->
  keeps P (super hook).
Proof.
  intros Hh s Hs. unfold super. destruct (hook (host s)) as [r h']. simpl.
  by apply Hh.
Qed.

(** Structural descent through a computation; the leaves left over are
    state updates, to be checked against the property at hand. *)
Ltac keeps_descend :=
  repeat first
    [ apply keeps_ret | apply keeps_raise | apply keeps_gets
    | apply keeps_bind; [|intros ?]
    | apply keeps_for_each; intros ?
    | apply keeps_comprehension; intros ?
    | match goal with
      | |- keeps _ (match ?x with _ => _ end) => destruct x
      end ].

Ltac keeps_leaf :=
  first [ apply keeps_modify | apply keeps_super ];
  intros; simpl in *; eauto.

Lemma root_device_keeps P : keeps P root_device.
Proof. intros s Hs. by rewrite root_device_pure. Qed.

Lemma wrap_one_keeps P lm n opt :
  (forall s e, P s -> P (State (host s) (_exit_stack s) (trace s ++ [e]))) ->
  keeps P (wrap_one lm n opt).
Proof.
  intros He. unfold wrap_one, _filter_named_parameters, emit.
  keeps_descend. keeps_leaf.
Qed.

Lemma _wrap_optimizers_keeps P opts n :
  (forall s e, P s -> P (State (host s) (_exit_stack s) (trace s ++ [e]))) ->
  keeps P (_wrap_optimizers opts n).
Proof.
  intros He. unfold _wrap_optimizers.
  apply keeps_bind; [apply keeps_gets|intros [lm|]; [|apply keeps_raise]].
  apply keeps_comprehension. intros opt. by apply (wrap_one_keeps P lm n opt).
Qed.

(** ** The exit stack *)

Lemma setup_unfold (tr : Trainer) :
  setup times tr =
  (model_to_device ;;
   super (ParallelStrategy_setup tr) ;;
   set_exit_stack (Some {| entered := [] |}) ;;
   emit ExitStack_enter ;;
   if negb (training tr) then mret tt else training_branch times tr).
Proof. reflexivity. Qed.

Lemma training_branch_keeps_stack tr :
  keeps (fun s => is_Some (_exit_stack s)) (training_branch times tr).
Proof.
  unfold training_branch, scale_lr, scale_base_lrs, enter_context,
    emit, set_host, set_exit_stack.
  keeps_descend;
    try (apply _wrap_optimizers_keeps; intros; simpl; assumption);
    keeps_leaf.
Qed.

Lemma setup_leaves_stack tr s s' :
  setup times tr s = (Return tt, s') -> is_Some (_exit_stack s').
Proof.
  rewrite setup_unfold, run_bind.
  destruct (model_to_device s) as [[[]|e] s1]; [|discriminate].
  rewrite run_bind. unfold super at 1.
  destruct (ParallelStrategy_setup tr (host s1)) as [[[]|e] h1]; [|discriminate].
  rewrite run_bind. simpl. rewrite run_bind. simpl.
  destruct (training tr); simpl.
  - intros E.
    pose proof (training_branch_keeps_stack tr
      (State h1 (Some {| entered := [] |}) (trace s1 ++ [ExitStack_enter]))
      (ltac:(simpl; eauto))) as K.
    rewrite E in K. exact K.
  - intros E. inversion E. simpl. eauto.
Qed.

Lemma for_each_emit {A : Type} (l : list A) (ev : A -> event (num:=num)) s :
  for_each l (fun x => emit (ev x)) s =
  (Return tt, State (host s) (_exit_stack s) (trace s ++ map ev l)).
Proof.
  revert s. induction l as [|x l IH]; intros s; simpl.
  - rewrite run_ret, app_nil_r. by destruct s.
  - rewrite run_bind. simpl. rewrite IH. simpl.
    by rewrite <- app_assoc.
Qed.

Lemma exit_calls_app (t1 t2 : list (event (num:=num))) :
  exit_calls (t1 ++ t2) = (exit_calls t1 + exit_calls t2)%nat.
Proof. unfold exit_calls. by rewrite List.filter_app, length_app. Qed.

Lemma exit_calls_skip (l : list optimizer) :
  exit_calls (num:=num) (map skip_synchronize_exit l) = 0%nat.
Proof. induction l; [reflexivity|exact IHl]. Qed.

(** The tail of [teardown]: the join and the base-class teardown. *)
Lemma teardown_tail s :
  let s' := snd ((join ;; super ParallelStrategy_teardown) s) in
  _exit_stack s' = _exit_stack s /\ exit_calls (trace s') = exit_calls (trace s).
Proof.
  simpl. rewrite run_bind.
  destruct (join_outcome s) as [[d E]|[E|E]]; [|by rewrite E..].
  rewrite (join_bound _ _ E). unfold super.
  destruct (ParallelStrategy_teardown _) as [r h']. simpl.
  split; [reflexivity|]. rewrite exit_calls_app.
  change (exit_calls [hvd_join (join_argument d)]) with 0%nat. lia.
Qed.

Lemma teardown_closed s :
  _exit_stack s = None ->
  teardown s = (join ;; super ParallelStrategy_teardown) s.
Proof.
  intros E. unfold teardown. rewrite run_bind. simpl. rewrite E. simpl.
  by rewrite run_bind, run_ret.
Qed.

Lemma teardown_open s st :
  _exit_stack s = Some st ->
  teardown s =
  (join ;; super ParallelStrategy_teardown)
    (State (host s) None
       (trace s ++ ExitStack_exit :: map skip_synchronize_exit (entered st))).
Proof.
  intros E. unfold teardown. rewrite run_bind. simpl. rewrite E. simpl.
  rewrite run_bind. unfold ExitStack___exit__. rewrite !run_bind. simpl.
  rewrite for_each_emit. simpl. by rewrite <- app_assoc.
Qed.

(** C10.  A [setup] call that completes, training or not, leaves the scope
    handle set: the stack is created and entered before the training test.
    [teardown] always leaves the handle [None]; it calls
    [ExitStack.__exit__] once when the handle was set and not at all when it
    was [None], so a second [teardown] does not close the scope again. *)
Theorem exit_stack_lifecycle (tr : Trainer) s :
  (forall s', setup times tr s = (Return tt, s') -> is_Some (_exit_stack s')) /\
  _exit_stack (snd (teardown s)) = None /\
  exit_calls (trace (snd (teardown s))) =
    (exit_calls (trace s) +
     match _exit_stack s with Some _ => 1 | None => 0 end)%nat /\
  exit_calls (trace (snd (teardown (snd (teardown s))))) =
    exit_calls (trace (snd (teardown s))).
Proof.
  assert (Hnone : _exit_stack (snd (teardown s)) = None /\
    exit_calls (trace (snd (teardown s))) =
      (exit_calls (trace s) +
       match _exit_stack s with Some _ => 1 | None => 0 end)%nat).
  { destruct (_exit_stack s) as [st|] eqn:E.
    - rewrite (teardown_open _ _ E).
      destruct (teardown_tail (State (host s) None
        (trace s ++ ExitStack_exit :: map skip_synchronize_exit (entered st))))
        as [K1 K2].
      split; [exact K1|]. rewrite K2. simpl.
      rewrite exit_calls_app.
      change (ExitStack_exit :: ?l) with ([ExitStack_exit] ++ l).
      rewrite exit_calls_app, exit_calls_skip. reflexivity.
    - rewrite (teardown_closed _ E).
      destruct (teardown_tail s) as [K1 K2].
      split; [by rewrite K1|]. rewrite K2. lia. }
  destruct Hnone as [Hnone Hcount].
  split; [intros s'; apply setup_leaves_stack|].
  split; [exact Hnone|]. split; [exact Hcount|].
  rewrite (teardown_closed _ Hnone).
  by destruct (teardown_tail (snd (teardown s))) as [_ K2].
Qed.

(** ** Wrapping *)

Lemma wrap_one_native lm n opt s :
  backend_native opt = true -> wrap_one lm n opt s = (Return opt, s).
Proof.
  intros E. unfold wrap_one. unfold backend_native in E. rewrite E. reflexivity.
Qed.

Lemma wrap_one_run lm n opt s :
  exists w evs,
    wrap_one lm n opt s =
      (Return w, State (host s) (_exit_stack s) (trace s ++ evs)) /\
    wrapped_from n opt w.
Proof.
  destruct (backend_native opt) eqn:E.
  - exists opt, []. rewrite (wrap_one_native _ _ _ _ E), app_nil_r.
    split; [by destruct s|]. left. done.
  - unfold wrap_one. unfold backend_native in E. rewrite E. simpl.
    eexists _, [_]. split; [reflexivity|]. right. split; [exact E|eauto].
Qed.

Lemma comprehension_native lm n opts s :
  Forall (fun o => backend_native o = true) opts ->
  comprehension opts (wrap_one lm n) s = (Return opts, s).
Proof.
  induction 1 as [|o opts Ho _ IH]; [reflexivity|].
  simpl. rewrite run_bind, (wrap_one_native _ _ _ _ Ho).
  rewrite run_bind, IH. reflexivity.
Qed.

Lemma comprehension_wrap lm n opts s :
  exists ws evs,
    comprehension opts (wrap_one lm n) s =
      (Return ws, State (host s) (_exit_stack s) (trace s ++ evs)) /\
    Forall2 (wrapped_from n) opts ws.
Proof.
  revert s. induction opts as [|o opts IH]; intros s.
  - exists [], []. rewrite app_nil_r. split; [by destruct s|constructor].
  - destruct (wrap_one_run lm n o s) as (w & e1 & E1 & Hw).
    destruct (IH (State (host s) (_exit_stack s) (trace s ++ e1)))
      as (ws & e2 & E2 & Hws).
    exists (w :: ws), (e1 ++ e2). simpl.
    rewrite run_bind, E1, run_bind, E2. simpl.
    rewrite <- app_assoc. split; [reflexivity|by constructor].
Qed.

Lemma _wrap_optimizers_attached opts n s lm :
  lightning_module (host s) = Some lm ->
  _wrap_optimizers opts n s = comprehension opts (wrap_one lm n) s.
Proof.
  intros E. unfold _wrap_optimizers. rewrite run_bind. simpl. rewrite E.
  reflexivity.
Qed.

Lemma _wrap_optimizers_returned opts n s ws s' :
  _wrap_optimizers opts n s = (Return ws, s') ->
  exists lm, lightning_module (host s) = Some lm.
Proof.
  unfold _wrap_optimizers. rewrite run_bind. simpl.
  destruct (lightning_module (host s)) as [lm|]; [eauto|discriminate].
Qed.

Lemma wrapped_from_native (F : HorovodFactory) n opt w :
  wrapped_from n opt w -> backend_native w = true.
Proof.
  intros [[E ->]|[_ [named ->]]]; [exact E|apply factory_native].
Qed.

Lemma wrapped_bases_app (t1 t2 : list (event (num:=num))) :
  wrapped_bases (t1 ++ t2) = wrapped_bases t1 ++ wrapped_bases t2.
Proof.
  unfold wrapped_bases. by rewrite map_app, join_app.
Qed.

(** One element of the comprehension: the factory is called on [opt] itself,
    once, when [opt] fails the class-name test, and not at all otherwise. *)
Lemma wrap_one_bases lm n opt s :
  exists w evs,
    wrap_one lm n opt s =
      (Return w, State (host s) (_exit_stack s) (trace s ++ evs)) /\
    wrapped_from n opt w /\
    wrapped_bases evs = filter (fun o => backend_native o = false) [opt].
Proof.
  rewrite filter_cons, filter_nil.
  destruct (backend_native opt) eqn:E.
  - exists opt, []. rewrite (wrap_one_native _ _ _ _ E), app_nil_r.
    split; [by destruct s|]. split; [by left|].
    by destruct (decide (true = false)).
  - unfold wrap_one. unfold backend_native in E. rewrite E. simpl.
    eexists _, [_]. split; [reflexivity|].
    split; [right; split; [exact E|eauto]|].
    by destruct (decide (false = false)).
Qed.

Lemma comprehension_wrap_bases lm n opts s :
  exists ws evs,
    comprehension opts (wrap_one lm n) s =
      (Return ws, State (host s) (_exit_stack s) (trace s ++ evs)) /\
    Forall2 (wrapped_from n) opts ws /\
    wrapped_bases evs = filter (fun o => backend_native o = false) opts.
Proof.
  revert s. induction opts as [|o opts IH]; intros s.
  - exists [], []. rewrite app_nil_r.
    split; [by destruct s|]. split; [constructor|reflexivity].
  - destruct (wrap_one_bases lm n o s) as (w & e1 & E1 & Hw & Hb1).
    destruct (IH (State (host s) (_exit_stack s) (trace s ++ e1)))
      as (ws & e2 & E2 & Hws & Hb2).
    exists (w :: ws), (e1 ++ e2). simpl.
    rewrite run_bind, E1, run_bind, E2. simpl.
    rewrite <- app_assoc. split; [reflexivity|].
    split; [by constructor|].
    rewrite wrapped_bases_app, Hb1, Hb2.
    change (o :: opts) with ([o] ++ opts). by rewrite filter_app.
Qed.

(** C6, as amended.  The wrap step leaves backend-native optimizers alone,
    so it is idempotent.  On a strategy with its Lightning module attached
    the wrap step always returns a list, and a list of optimizers that all
    pass the backend-native test comes back as it is, with no call to the
    factory.  In particular an optimizer made by [hvd.DistributedOptimizer]
    is not wrapped again.  Whenever the wrap step returns a list, running it
    again on that list returns the same list and changes nothing, so no
    optimizer is wrapped twice by running the step again.  Within one run
    the factory is called once for each entry of the input that fails the
    test, in list order, and for nothing else; so when no optimizer is
    listed twice, each base optimizer gets at most one wrapper. *)
Theorem wrap_optimizers_idempotent (F : HorovodFactory)
    (opts : list optimizer) (n : Z) s :
  (forall lm, lightning_module (host s) = Some lm ->
     (exists opts' s', _wrap_optimizers opts n s = (Return opts', s')) /\
     (Forall (fun o => backend_native o = true) opts ->
      _wrap_optimizers opts n s = (Return opts, s)) /\
     (forall base m named,
        _wrap_optimizers [DistributedOptimizer base m named] n s =
        (Return [DistributedOptimizer base m named], s))) /\
  (forall opts' s', _wrap_optimizers opts n s = (Return opts', s') ->
     length opts' = length opts /\
     _wrap_optimizers opts' n s' = (Return opts', s') /\
     Forall2 (wrapped_from n) opts opts' /\
     exists calls,
       trace s' = trace s ++ calls /\
       wrapped_bases calls = filter (fun o => backend_native o = false) opts /\
       (NoDup opts -> NoDup (wrapped_bases calls))).
Proof.
  split.
  - intros lm Hlm. split; [|split].
    + rewrite (_wrap_optimizers_attached _ _ _ _ Hlm).
      destruct (comprehension_wrap lm n opts s) as (ws & evs & E & _). eauto.
    + rewrite (_wrap_optimizers_attached _ _ _ _ Hlm).
      by apply comprehension_native.
    + intros base m named. rewrite (_wrap_optimizers_attached _ _ _ _ Hlm).
      apply comprehension_native. constructor; [apply factory_native|constructor].
  - intros opts' s' E.
    destruct (_wrap_optimizers_returned _ _ _ _ _ E) as [lm Hlm].
    rewrite (_wrap_optimizers_attached _ _ _ _ Hlm) in E.
    destruct (comprehension_wrap_bases lm n opts s)
      as (ws & evs & E' & Hws & Hbases).
    rewrite E' in E. inversion E; subst opts' s'; clear E.
    split; [symmetry; by eapply Forall2_length|].
    split; [|split; [exact Hws|]].
    + rewrite (_wrap_optimizers_attached _ _ _ lm); [|exact Hlm].
      apply comprehension_native.
      clear E' Hbases. induction Hws as [|o w opts ws Hw _ IH]; constructor.
      * by eapply wrapped_from_native.
      * exact IH.
    + exists evs. split; [reflexivity|]. split; [exact Hbases|].
      intros Hnd. rewrite Hbases. by apply NoDup_filter.
Qed.

(** ** The scaling loops *)

Lemma for_each_nested {A C : Type} (f : A -> list C) (body : C -> M unit)
    (l : list A) s :
  for_each l (fun x => for_each (f x) body) s =
  for_each (mjoin (map f l)) body s.
Proof.
  revert s. induction l as [|x l IH]; intros s; [reflexivity|].
  simpl. rewrite for_each_app, !run_bind.
  destruct (for_each (f x) body s) as [[[]|e] s1]; [apply IH|reflexivity].
Qed.

Lemma scale_lr_run g s lr :
  pg_lr (the_group (group_store (host s)) g) = Some lr ->
  scale_lr times g s =
  (Return tt,
   State (with_group_store (scale_group times (group_store (host s)) g) (host s))
     (_exit_stack s) (trace s)).
Proof.
  intros E. unfold scale_lr, scale_group. rewrite run_bind. simpl.
  rewrite E. reflexivity.
Qed.

Lemma scale_group_other (store : gmap loc param_group) g g' :
  g <> g' -> scale_group times store g !! g' = store !! g'.
Proof.
  intros Hne. unfold scale_group.
  destruct (pg_lr (the_group store g)); [by rewrite lookup_insert_ne|done].
Qed.

Lemma scale_group_same (store : gmap loc param_group) g lr :
  pg_lr (the_group store g) = Some lr ->
  pg_lr (the_group (scale_group times store g) g) = Some (times lr world_size).
Proof.
  intros E. unfold scale_group. rewrite E.
  unfold the_group at 1. by rewrite lookup_insert_eq.
Qed.

Lemma scale_group_has_lr (store : gmap loc param_group) g g' :
  has_lr store g' -> has_lr (scale_group times store g) g'.
Proof.
  unfold has_lr. intros [lr Hlr]. destruct (decide (g = g')) as [->|Hne].
  - rewrite (scale_group_same _ _ _ Hlr). eauto.
  - unfold the_group. rewrite (scale_group_other _ _ _ Hne).
    fold (the_group store g'). rewrite Hlr. eauto.
Qed.

Lemma for_each_scale_lr gs s :
  Forall (has_lr (group_store (host s))) gs ->
  for_each gs (scale_lr times) s =
  (Return tt,
   State (with_group_store
            (fold_left (scale_group times) gs (group_store (host s))) (host s))
     (_exit_stack s) (trace s)).
Proof.
  revert s. induction gs as [|g gs IH]; intros s Hall.
  - simpl. rewrite run_ret. by destruct s as [[] ? ?].
  - inversion Hall as [|? ? [lr Hlr] Hrest]; subst. simpl.
    rewrite run_bind, (scale_lr_run _ _ _ Hlr), IH; [reflexivity|].
    simpl. eapply Forall_impl; [exact Hrest|].
    intros g'. apply scale_group_has_lr.
Qed.

Lemma fold_scale_group_other gs (store : gmap loc param_group) g :
  g ∉ gs -> fold_left (scale_group times) gs store !! g = store !! g.
Proof.
  revert store. induction gs as [|x gs IH]; intros store Hg; [reflexivity|].
  apply not_elem_of_cons in Hg as [Hne Hg]. simpl.
  rewrite (IH _ Hg). by apply scale_group_other.
Qed.

Lemma fold_scale_group_once gs (store : gmap loc param_group) g lr :
  NoDup gs -> g ∈ gs ->
  pg_lr (the_group store g) = Some lr ->
  pg_lr (the_group (fold_left (scale_group times) gs store) g)
    = Some (times lr world_size).
Proof.
  revert store. induction gs as [|x gs IH]; intros store Hnd Hg Hlr.
  - by apply elem_of_nil in Hg.
  - apply NoDup_cons in Hnd as [Hx Hnd]. simpl.
    apply elem_of_cons in Hg as [->|Hg].
    + unfold the_group. rewrite (fold_scale_group_other _ _ _ Hx).
      by apply scale_group_same.
    + apply IH; [done..|].
      assert (x <> g) as Hne by (intros ->; done).
      unfold the_group. rewrite (scale_group_other _ _ _ Hne). exact Hlr.
Qed.

Lemma scale_base_lrs_run l s :
  scale_base_lrs times l s =
  (Return tt,
   State (with_scheduler_store
            (scale_scheduler times (scheduler_store (host s)) l) (host s))
     (_exit_stack s) (trace s)).
Proof.
  unfold scale_base_lrs, scale_scheduler. rewrite run_bind. simpl.
  destruct (base_lrs (the_scheduler (scheduler_store (host s)) l));
    [reflexivity|].
  rewrite run_ret. by destruct s as [[] ? ?].
Qed.

Lemma for_each_scale_base_lrs (configs : list lr_scheduler_config) s :
  for_each configs (fun config => scale_base_lrs times (scheduler config)) s =
  (Return tt,
   State (with_scheduler_store
            (fold_left (scale_scheduler times) (map scheduler configs)
               (scheduler_store (host s))) (host s))
     (_exit_stack s) (trace s)).
Proof.
  revert s. induction configs as [|c configs IH]; intros s; simpl.
  - rewrite run_ret. by destruct s as [[] ? ?].
  - rewrite run_bind, scale_base_lrs_run, IH. reflexivity.
Qed.

Lemma scale_scheduler_other (store : gmap loc lr_scheduler) l l' :
  l <> l' -> scale_scheduler times store l !! l' = store !! l'.
Proof.
  intros Hne. unfold scale_scheduler.
  destruct (base_lrs (the_scheduler store l)); [by rewrite lookup_insert_ne|done].
Qed.

Lemma scale_scheduler_same (store : gmap loc lr_scheduler) l lrs :
  base_lrs (the_scheduler store l) = Some lrs ->
  base_lrs (the_scheduler (scale_scheduler times store l) l)
    = Some (map (fun lr => times lr world_size) lrs).
Proof.
  intros E. unfold scale_scheduler. rewrite E.
  unfold the_scheduler at 1. by rewrite lookup_insert_eq.
Qed.

Lemma fold_scale_scheduler_other ls (store : gmap loc lr_scheduler) l :
  l ∉ ls -> fold_left (scale_scheduler times) ls store !! l = store !! l.
Proof.
  revert store. induction ls as [|x ls IH]; intros store Hl; [reflexivity|].
  apply not_elem_of_cons in Hl as [Hne Hl]. simpl.
  rewrite (IH _ Hl). by apply scale_scheduler_other.
Qed.

Lemma fold_scale_scheduler_once ls (store : gmap loc lr_scheduler) l lrs :
  NoDup ls -> l ∈ ls ->
  base_lrs (the_scheduler store l) = Some lrs ->
  base_lrs (the_scheduler (fold_left (scale_scheduler times) ls store) l)
    = Some (map (fun lr => times lr world_size) lrs).
Proof.
  revert store. induction ls as [|x ls IH]; intros store Hnd Hl Hlrs.
  - by apply elem_of_nil in Hl.
  - apply NoDup_cons in Hnd as [Hx Hnd]. simpl.
    apply elem_of_cons in Hl as [->|Hl].
    + unfold the_scheduler. rewrite (fold_scale_scheduler_other _ _ _ Hx).
      by apply scale_scheduler_same.
    + apply IH; [done..|].
      assert (x <> l) as Hne by (intros ->; done).
      unfold the_scheduler. rewrite (scale_scheduler_other _ _ _ Hne).
      exact Hlrs.
Qed.

(** A scheduler without [base_lrs] is never written to. *)
Lemma fold_scale_scheduler_plain ls (store : gmap loc lr_scheduler) l :
  base_lrs (the_scheduler store l) = None ->
  fold_left (scale_scheduler times) ls store !! l = store !! l.
Proof.
  revert store. induction ls as [|x ls IH]; intros store Hl; [reflexivity|].
  simpl. destruct (decide (x = l)) as [->|Hne].
  - unfold scale_scheduler at 2. rewrite Hl. by apply IH.
  - rewrite IH.
    + by apply scale_scheduler_other.
    + unfold the_scheduler. by rewrite (scale_scheduler_other _ _ _ Hne).
Qed.

(** ** The training branch of [setup] *)

Lemma model_to_device_run s d m :
  root_device s = (Return d, s) ->
  model (host s) = Some m ->
  exists evs,
    model_to_device s =
    (Return tt, State (host s) (_exit_stack s) (trace s ++ evs)).
Proof.
  intros Hd Hm. unfold model_to_device. rewrite run_bind, Hd.
  destruct (String.eqb (dev_type d) "cuda").
  - eexists [_; _]. rewrite run_bind. simpl. rewrite run_bind. simpl.
    rewrite Hm. unfold emit, modify. simpl. by rewrite <- app_assoc.
  - eexists [_]. rewrite run_bind, run_ret, run_bind. simpl.
    rewrite Hm. reflexivity.
Qed.

Lemma for_each_enter_context ws s st :
  _exit_stack s = Some st ->
  Forall (fun w => is_Some (distributed w)) ws ->
  exists st' evs,
    for_each ws enter_context s =
    (Return tt, State (host s) (Some st') (trace s ++ evs)).
Proof.
  revert s st. induction ws as [|w ws IH]; intros s st Hst Hall.
  - exists st, []. simpl. rewrite run_ret, app_nil_r, <- Hst. by destruct s.
  - inversion Hall as [|? ? [cfg Hw] Hrest]; subst. simpl.
    rewrite run_bind. unfold enter_context at 1. rewrite run_bind. simpl.
    rewrite Hst, Hw. rewrite run_bind. simpl.
    edestruct (IH (State (host s) (Some {| entered := w :: entered st |})
                     (trace s ++ [skip_synchronize_enter w])))
      as (st' & evs & E); [reflexivity|exact Hrest|].
    rewrite E. simpl. exists st', (skip_synchronize_enter w :: evs).
    by rewrite <- app_assoc.
Qed.

Lemma ready_to_train_inv h :
  ready_to_train h = true ->
  Forall (has_lr (group_store h)) (visited_groups h) /\
  is_Some (lightning_module h) /\
  Forall (fun o => backend_native o = true -> is_Some (distributed o))
    (map _unpack_lightning_optimizer (optimizers h)).
Proof.
  unfold ready_to_train. intros Hr.
  apply andb_prop in Hr as [Hr Hc]. apply andb_prop in Hr as [Ha Hb].
  split; [|split].
  - apply Forall_forall. intros g Hg. apply list_elem_of_In in Hg.
    rewrite forallb_forall in Ha. specialize (Ha _ Hg).
    by apply bool_decide_eq_true in Ha.
  - by apply bool_decide_eq_true in Hb.
  - apply Forall_forall. intros o Ho Hnat.
    apply list_elem_of_fmap in Ho as (ho & -> & Ho).
    apply list_elem_of_In in Ho. rewrite forallb_forall in Hc.
    specialize (Hc _ Ho). simpl in Hc. rewrite Hnat in Hc.
    by apply bool_decide_eq_true in Hc.
Qed.

Lemma wrapped_distributed (F : HorovodFactory) n opts ws :
  Forall (fun o => backend_native o = true -> is_Some (distributed o)) opts ->
  Forall2 (wrapped_from n) opts ws ->
  Forall (fun w => is_Some (distributed w)) ws.
Proof.
  intros Hopts Hws. induction Hws as [|o w opts ws Hw _ IH].
  - constructor.
  - inversion Hopts; subst. constructor; [|by apply IH].
    destruct Hw as [[E ->]|[_ [named ->]]]; [auto|apply factory_distributed].
Qed.

Lemma training_branch_run (F : HorovodFactory) tr s st :
  _exit_stack s = Some st ->
  ready_to_train (host s) = true ->
  exists s2, training_branch times tr s = (Return tt, s2).
Proof.
  intros Hst Hready.
  destruct (ready_to_train_inv _ Hready) as (Hlr & [lm Hlm] & Hnat).
  unfold training_branch. rewrite run_bind. simpl.
  rewrite run_bind, for_each_nested, map_map.
  fold (visited_groups (host s)). rewrite (for_each_scale_lr _ _ Hlr).
  rewrite run_bind. simpl. rewrite run_bind, for_each_scale_base_lrs. simpl.
  rewrite run_bind. simpl. rewrite Hlm.
  rewrite run_bind. simpl. rewrite run_bind, for_each_emit. simpl.
  rewrite run_bind.
  rewrite (_wrap_optimizers_attached _ _ _ lm); [|exact Hlm].
  match goal with
  | |- context [comprehension ?opts (wrap_one lm ?n) ?s1] =>
      destruct (comprehension_wrap lm n opts s1) as (ws & evs & E & Hws)
  end.
  rewrite E. rewrite run_bind. simpl.
  match goal with
  | |- context [for_each ws enter_context ?s1] =>
      destruct (for_each_enter_context ws s1 st Hst
                  (wrapped_distributed F _ _ _ Hnat Hws))
        as (st' & evs' & E')
  end.
  rewrite E'. eexists. reflexivity.
Qed.

(** [setup] completes on a strategy that is ready to train. *)
Lemma setup_training_run (F : HorovodFactory) tr s d m h1 :
  training tr = true ->
  root_device s = (Return d, s) ->
  model (host s) = Some m ->
  ParallelStrategy_setup tr (host s) = (Return tt, h1) ->
  ready_to_train h1 = true ->
  exists s2, setup times tr s = (Return tt, s2).
Proof.
  intros Htr Hd Hm Hbase Hready.
  destruct (model_to_device_run _ _ _ Hd Hm) as [evs E].
  rewrite setup_unfold, run_bind, E, run_bind. unfold super at 1. simpl.
  rewrite Hbase. rewrite run_bind. simpl. rewrite run_bind. simpl.
  rewrite Htr. simpl.
  eapply (training_branch_run F tr (State h1 _ _)); [reflexivity|exact Hready].
Qed.

(** ** What a completed [setup] leaves in the stores *)

Lemma for_each_scale_lr_returned gs s s' :
  for_each gs (scale_lr times) s = (Return tt, s') ->
  s' = State (with_group_store
                (fold_left (scale_group times) gs (group_store (host s)))
                (host s))
         (_exit_stack s) (trace s).
Proof.
  revert s. induction gs as [|g gs IH]; intros s E; simpl in E.
  - rewrite run_ret in E. inversion E. by destruct s' as [[] ? ?].
  - rewrite run_bind in E.
    destruct (pg_lr (the_group (group_store (host s)) g)) as [lr|] eqn:Hlr.
    + rewrite (scale_lr_run _ _ _ Hlr) in E. apply IH in E.
      rewrite E. reflexivity.
    + unfold scale_lr in E. rewrite run_bind in E. simpl in E.
      rewrite Hlr in E. discriminate.
Qed.

Lemma model_to_device_host s : host (snd (model_to_device s)) = host s.
Proof.
  assert (K : keeps (fun s0 => host s0 = host s) model_to_device).
  { unfold model_to_device, emit.
    apply keeps_bind; [apply root_device_keeps|intros d].
    apply keeps_bind.
    { destruct (String.eqb (dev_type d) "cuda"); [keeps_leaf|apply keeps_ret]. }
    intros _. apply keeps_bind; [apply keeps_gets|].
    intros [m|]; [keeps_leaf|apply keeps_raise]. }
  exact (K s eq_refl).
Qed.

Lemma training_branch_returned tr s s2 :
  training_branch times tr s = (Return tt, s2) ->
  group_store (host s2) =
    fold_left (scale_group times) (visited_groups (host s))
      (group_store (host s)) /\
  scheduler_store (host s2) =
    fold_left (scale_scheduler times) (visited_schedulers (host s))
      (scheduler_store (host s)).
Proof.
  unfold training_branch. rewrite run_bind. simpl.
  rewrite run_bind, for_each_nested, map_map.
  fold (visited_groups (host s)).
  destruct (for_each (visited_groups (host s)) (scale_lr times) s)
    as [[[]|e] s1] eqn:E1; [|discriminate].
  apply for_each_scale_lr_returned in E1. subst s1.
  rewrite run_bind. simpl. rewrite run_bind, for_each_scale_base_lrs. simpl.
  fold (visited_schedulers (host s)).
  intros E.
  match type of E with
  | ?m ?s3 = _ =>
      assert (K : keeps
        (fun s0 => group_store (host s0) = group_store (host s3) /\
                   scheduler_store (host s0) = scheduler_store (host s3)) m)
  end.
  { unfold enter_context, emit, set_host, set_exit_stack.
    keeps_descend;
      try (apply _wrap_optimizers_keeps; intros; simpl; assumption);
      keeps_leaf. }
  match type of E with
  | _ ?s3 = _ => specialize (K s3 (conj eq_refl eq_refl))
  end.
  rewrite E in K. exact K.
Qed.

Lemma setup_returned tr s s2 h1 :
  training tr = true ->
  ParallelStrategy_setup tr (host s) = (Return tt, h1) ->
  setup times tr s = (Return tt, s2) ->
  group_store (host s2) =
    fold_left (scale_group times) (visited_groups h1) (group_store h1) /\
  scheduler_store (host s2) =
    fold_left (scale_scheduler times) (visited_schedulers h1)
      (scheduler_store h1).
Proof.
  intros Htr Hbase. rewrite setup_unfold, run_bind.
  pose proof (model_to_device_host s) as Hhost.
  destruct (model_to_device s) as [[[]|e] s1]; [|discriminate].
  simpl in Hhost. rewrite run_bind. unfold super at 1. rewrite Hhost, Hbase.
  rewrite run_bind. simpl. rewrite run_bind. simpl. rewrite Htr. simpl.
  intros E. apply training_branch_returned in E. exact E.
Qed.

(** C1, as amended.  Let the trainer be training and let [h1] be the state
    the base-class setup returns, with the optimizers in place.  If no
    parameter-group dict is reached twice through the optimizers of [h1],
    then every [setup] that completes leaves each reached dict with its
    learning rate multiplied by the world size, whatever the world size is,
    and leaves the other dicts as they were.  And [setup] does complete when
    the device is bound, a model is attached, [h1] is ready to train and the
    backend's factory returns Horovod optimizers. *)
Theorem setup_scales_learning_rates (tr : Trainer) s h1 :
  training tr = true ->
  ParallelStrategy_setup tr (host s) = (Return tt, h1) ->
  NoDup (visited_groups h1) ->
  (forall s2, setup times tr s = (Return tt, s2) ->
     (forall g lr,
        g ∈ visited_groups h1 ->
        pg_lr (the_group (group_store h1) g) = Some lr ->
        pg_lr (the_group (group_store (host s2)) g)
          = Some (times lr world_size)) /\
     (forall g, g ∉ visited_groups h1 ->
        group_store (host s2) !! g = group_store h1 !! g)) /\
  (HorovodFactory ->
   forall d m,
     root_device s = (Return d, s) ->
     model (host s) = Some m ->
     ready_to_train h1 = true ->
     exists s2, setup times tr s = (Return tt, s2)).
Proof.
  intros Htr Hbase Hnd. split.
  - intros s2 E.
    destruct (setup_returned tr s s2 h1 Htr Hbase E) as [Hg _].
    rewrite Hg. split.
    + intros g lr Hin Hlr. by apply fold_scale_group_once.
    + intros g Hout. by apply fold_scale_group_other.
  - intros F d m Hd Hm Hready. by eapply setup_training_run.
Qed.

(** C7, as amended.  Let the trainer be training and let [h1] be the state
    the base-class setup returns.  If no scheduler object appears in two
    configs of [h1], then every [setup] that completes leaves each
    configured scheduler that has a [base_lrs] list with every entry of it
    multiplied by the world size, and leaves every scheduler without such a
    list unchanged.  And [setup] does complete under the conditions stated
    for C1. *)
Theorem setup_scales_base_lrs (tr : Trainer) s h1 :
  training tr = true ->
  ParallelStrategy_setup tr (host s) = (Return tt, h1) ->
  NoDup (visited_schedulers h1) ->
  (forall s2, setup times tr s = (Return tt, s2) ->
     (forall l lrs,
        l ∈ visited_schedulers h1 ->
        base_lrs (the_scheduler (scheduler_store h1) l) = Some lrs ->
        base_lrs (the_scheduler (scheduler_store (host s2)) l)
          = Some (map (fun lr => times lr world_size) lrs)) /\
     (forall l,
        base_lrs (the_scheduler (scheduler_store h1) l) = None ->
        scheduler_store (host s2) !! l = scheduler_store h1 !! l)) /\
  (HorovodFactory ->
   forall d m,
     root_device s = (Return d, s) ->
     model (host s) = Some m ->
     ready_to_train h1 = true ->
     exists s2, setup times tr s = (Return tt, s2)).
Proof.
  intros Htr Hbase Hnd. split.
  - intros s2 E.
    destruct (setup_returned tr s s2 h1 Htr Hbase E) as [_ Hs].
    rewrite Hs. split.
    + intros l lrs Hin Hl. by apply fold_scale_scheduler_once.
    + intros l Hl. by apply fold_scale_scheduler_plain.
  - intros F d m Hd Hm Hready. by eapply setup_training_run.
Qed.

(** ** Gathering *)

Lemma all_gather_run (t : tensor) (g : option process_group)
    (sync_grads : bool) s d :
  g = None \/ g = WORLD ->
  root_device s = (Return d, s) ->
  let passed := if Nat.eqb (length (shape t)) 0
                then Tensor [1%nat] (data t) else t in
  all_gather t g sync_grads s =
  (answered (allgather passed),
   State (host s) (_exit_stack s)
     (trace s ++ [hvd_join (join_argument d); hvd_allgather passed])).
Proof.
  intros Hg Hd. simpl. rewrite (all_gather_accepted _ _ _ _ Hg), run_bind.
  assert (Hrest : forall x,
    (join ;; call_allgather x) s =
    (answered (allgather x),
     State (host s) (_exit_stack s)
       (trace s ++ [hvd_join (join_argument d); hvd_allgather x]))).
  { intros x. rewrite run_bind, (join_bound _ _ Hd), call_allgather_run.
    unfold joined. simpl. by rewrite <- app_assoc. }
  destruct (shape t) as [|n sh] eqn:Esh; simpl.
  - unfold reshape. rewrite Esh. simpl. apply Hrest.
  - apply Hrest.
Qed.

Lemma concat_ranks_scalars (scalars : list (tensor (num:=num))) :
  scalars <> [] ->
  let parts := map (fun c => Tensor [1%nat] (data c)) scalars in
  shape (concat_ranks parts) = [length scalars] /\
  data (concat_ranks parts) = mjoin (map data scalars).
Proof.
  intros Hne. simpl. split.
  - destruct scalars as [|c scalars]; [done|]. simpl. f_equal. f_equal.
    induction scalars as [|c' scalars IH]; [reflexivity|].
    simpl. by rewrite IH.
  - unfold concat_ranks. simpl. by rewrite map_map.
Qed.

(** C8.  With [group] at [None] or the world group and the device bound,
    [all_gather] joins and then gathers; a 0-dimensional tensor is passed
    to [hvd.allgather] reshaped to shape [[1]], a tensor with at least one
    dimension is passed as it is.  When the processes of the group all
    gather scalars, this process being rank [r], and the backend answers
    with the rank-ordered concatenation of what the processes passed, the
    result has length [W], the world size, and is made of one 1-dimensional
    entry per process in ascending rank order. *)
Theorem all_gather_reshapes_scalars (g : option process_group)
    (sync_grads : bool) s d :
  g = None \/ g = WORLD ->
  root_device s = (Return d, s) ->
  (forall t, shape t = [] ->
     all_gather t g sync_grads s =
     (answered (allgather (Tensor [1%nat] (data t))),
      State (host s) (_exit_stack s)
        (trace s ++ [hvd_join (join_argument d);
                     hvd_allgather (Tensor [1%nat] (data t))]))) /\
  (forall t, shape t <> [] ->
     all_gather t g sync_grads s =
     (answered (allgather t),
      State (host s) (_exit_stack s)
        (trace s ++ [hvd_join (join_argument d); hvd_allgather t]))) /\
  (forall (scalars : list tensor) (r : nat) (t : tensor),
     world_size = Z.of_nat (length scalars) ->
     Forall (fun c => shape c = []) scalars ->
     scalars !! r = Some t ->
     (forall x, allgather x =
        Some (concat_ranks
                (<[r := x]> (map (fun c => Tensor [1%nat] (data c)) scalars)))) ->
     exists out,
       fst (all_gather t g sync_grads s) = Return out /\
       out = concat_ranks (map (fun c => Tensor [1%nat] (data c)) scalars) /\
       shape out = [Z.to_nat world_size] /\
       data out = mjoin (map data scalars)).
Proof.
  intros Hg Hd.
  assert (Hscalar : forall t, shape t = [] ->
     all_gather t g sync_grads s =
     (answered (allgather (Tensor [1%nat] (data t))),
      State (host s) (_exit_stack s)
        (trace s ++ [hvd_join (join_argument d);
                     hvd_allgather (Tensor [1%nat] (data t))]))).
  { intros t Esh. rewrite (all_gather_run t g sync_grads s d Hg Hd).
    by rewrite Esh. }
  split; [exact Hscalar|]. split.
  - intros t Esh. rewrite (all_gather_run t g sync_grads s d Hg Hd).
    destruct (shape t); [done|reflexivity].
  - intros scalars r t Hsize Hall Hr Hback.
    rewrite Hsize, Nat2Z.id.
    rewrite Forall_forall in Hall.
    rewrite (Hscalar t (Hall t (list_elem_of_lookup_2 _ _ _ Hr))), Hback.
    rewrite list_insert_id.
    + eexists. split; [reflexivity|]. split; [reflexivity|].
      apply concat_ranks_scalars. intros ->. by rewrite lookup_nil in Hr.
    + change (map ?f scalars) with (f <$> scalars).
      by rewrite list_lookup_fmap, Hr.
Qed.

(** * More of the adapter *)

Implicit Types (store : gmap loc (param_group (num:=num))).

(** ** Named parameters and wrapping *)

Lemma _filter_named_parameters_run (lm : module) (opt : optimizer) s :
  _filter_named_parameters lm opt s =
  (Return (owned_named_parameters (group_store (host s)) lm opt), s).
Proof. reflexivity. Qed.

Lemma elem_of_owned_parameters store
    (opt : optimizer) (p : param) :
  p ∈ owned_parameters store opt <->
  exists g ps, g ∈ param_groups opt /\
    pg_params (the_group store g) = Some ps /\ p ∈ ps.
Proof.
  unfold owned_parameters. rewrite elem_of_list_to_set, list_elem_of_join.
  split.
  - intros (l & Hp & Hl).
    change (map ?f ?x) with (f <$> x) in Hl.
    apply list_elem_of_fmap in Hl as (g & -> & Hg).
    destruct (pg_params (the_group store g)) as [ps|] eqn:E; simpl in Hp.
    + eauto.
    + by apply elem_of_nil in Hp.
  - intros (g & ps & Hg & E & Hp). exists ps. split; [exact Hp|].
    change (map ?f ?x) with (f <$> x).
    apply list_elem_of_fmap. exists g. by rewrite E.
Qed.

(** X1.
    [_filter_named_parameters] reads the store and changes nothing.  It
    returns the model's (name, parameter) pairs, in the model's order,
    whose parameter is listed under ["params"] in one of the optimizer's
    parameter groups; a group without that key contributes nothing. *)
Theorem filter_named_parameters_owned (lm : module) (opt : optimizer) s :
  exists named,
    _filter_named_parameters lm opt s = (Return named, s) /\
    sublist named (named_parameters lm) /\
    forall name p,
      (name, p) ∈ named <->
      (name, p) ∈ named_parameters lm /\
      exists g ps, g ∈ param_groups opt /\
        pg_params (the_group (group_store (host s)) g) = Some ps /\ p ∈ ps.
Proof.
  eexists. split; [apply _filter_named_parameters_run|].
  unfold owned_named_parameters. split; [apply sublist_filter|].
  intros name p. rewrite list_elem_of_filter. simpl.
  rewrite elem_of_owned_parameters. tauto.
Qed.

Lemma factory_calls_one store (lm : module) (n : Z) (opt : optimizer) :
  factory_calls store lm n [opt] =
  if backend_native opt then []
  else [hvd_DistributedOptimizer opt n (owned_named_parameters store lm opt)].
Proof. unfold factory_calls. simpl. by rewrite app_nil_r. Qed.

Lemma wrap_one_result (lm : module) (n : Z) (opt : optimizer) s :
  wrap_one lm n opt s =
  (Return (wrapped (group_store (host s)) lm n opt),
   State (host s) (_exit_stack s)
     (trace s ++ factory_calls (group_store (host s)) lm n [opt])).
Proof.
  rewrite factory_calls_one. unfold wrap_one, wrapped, backend_native.
  destruct (py_str_contains "horovod" (class_repr opt)); simpl.
  - rewrite app_nil_r. by destruct s.
  - reflexivity.
Qed.

Lemma factory_calls_cons store (lm : module) (n : Z)
    (opt : optimizer) (opts : list optimizer) :
  factory_calls store lm n (opt :: opts) =
  factory_calls store lm n [opt] ++ factory_calls store lm n opts.
Proof. unfold factory_calls. simpl. by rewrite app_nil_r. Qed.

Lemma comprehension_wrap_result (lm : module) (n : Z)
    (opts : list optimizer) s :
  comprehension opts (wrap_one lm n) s =
  (Return (map (wrapped (group_store (host s)) lm n) opts),
   State (host s) (_exit_stack s)
     (trace s ++ factory_calls (group_store (host s)) lm n opts)).
Proof.
  revert s. induction opts as [|opt opts IH]; intros s.
  - simpl. rewrite run_ret. unfold factory_calls. simpl.
    rewrite app_nil_r. by destruct s.
  - simpl. rewrite run_bind, wrap_one_result, run_bind, IH.
    rewrite (factory_calls_cons _ lm n opt opts). simpl.
    by rewrite <- app_assoc.
Qed.

(** X2.
    The wrap step, spelled out.  Without a Lightning module it raises
    [AssertionError] and calls nothing.  With one it returns a list as long
    as its input, in the same order: an optimizer that passes the class-name
    test stays itself, any other is replaced by the factory's product for
    it, built with [backward_passes_per_step = accumulate_grad_batches] and
    the named parameters that optimizer owns.  The factory is called once
    per optimizer that fails the test, in list order, and nothing else
    changes. *)
Theorem wrap_optimizers_result (opts : list optimizer) (n : Z) s :
  _wrap_optimizers opts n s =
    match lightning_module (host s) with
    | None => (Raise AssertionError, s)
    | Some lm =>
        (Return (map (wrapped (group_store (host s)) lm n) opts),
         State (host s) (_exit_stack s)
           (trace s ++ factory_calls (group_store (host s)) lm n opts))
    end /\
  forall lm,
    length (factory_calls (group_store (host s)) lm n opts) =
    length (filter (fun opt => backend_native opt = false) opts).
Proof.
  split.
  - destruct (lightning_module (host s)) as [lm|] eqn:E.
    + rewrite (_wrap_optimizers_attached _ _ _ _ E).
      apply comprehension_wrap_result.
    + unfold _wrap_optimizers. rewrite run_bind. simpl. by rewrite E.
  - intros lm. induction opts as [|opt opts IH]; [reflexivity|].
    rewrite (factory_calls_cons _ lm n opt opts), length_app, IH, filter_cons.
    rewrite factory_calls_one.
    destruct (backend_native opt); reflexivity.
Qed.

(** ** The root device *)

(** X3.
    [root_device] is Python's [parallel_devices[local_rank]].  It raises
    [AssertionError] when [parallel_devices] is [None]; on a list of [n]
    devices it returns the device at position [local_rank mod n] when
    [-n <= local_rank < n] (a negative rank counts from the end) and raises
    [IndexError] otherwise; the state is never changed. *)
Theorem root_device_indexing s :
  (parallel_devices (host s) = None ->
     root_device s = (Raise AssertionError, s)) /\
  (forall l, parallel_devices (host s) = Some l ->
     let n := Z.of_nat (length l) in
     (- n <= local_rank < n ->
        exists d, l !! Z.to_nat (local_rank mod n) = Some d /\
                  root_device s = (Return d, s)) /\
     (~ (- n <= local_rank < n) ->
        root_device s = (Raise IndexError, s))).
Proof.
  split.
  - intros E. unfold root_device. rewrite run_bind. simpl. by rewrite E.
  - intros l E n.
    assert (Hrun : root_device s =
      match py_index l local_rank with
      | Some d => (Return d, s)
      | None => (Raise IndexError, s)
      end).
    { unfold root_device. rewrite run_bind. simpl. rewrite E.
      by destruct (py_index l local_rank). }
    rewrite Hrun. unfold py_index. fold n. split.
    + intros [Hlo Hhi]. destruct (Z.leb_spec 0 local_rank) as [Hpos|Hneg].
      * rewrite Z.mod_small by lia.
        destruct (lookup_lt_is_Some_2 l (Z.to_nat local_rank)) as [d Hd];
          [unfold n in Hhi; lia|].
        exists d. by rewrite Hd.
      * destruct (Z.leb_spec 0 (local_rank + n)) as [_|]; [|lia].
        assert (local_rank mod n = local_rank + n) as ->.
        { rewrite <- (Z_mod_plus_full local_rank 1 n), Z.mul_1_l.
          apply Z.mod_small. lia. }
        destruct (lookup_lt_is_Some_2 l (Z.to_nat (local_rank + n)))
          as [d Hd]; [unfold n in *; lia|].
        exists d. by rewrite Hd.
    + intros Hout. destruct (Z.leb_spec 0 local_rank) as [Hpos|Hneg].
      * rewrite lookup_ge_None_2; [reflexivity|unfold n in Hout; lia].
      * destruct (Z.leb_spec 0 (local_rank + n)) as [|_]; [lia|reflexivity].
Qed.

Lemma root_device_cases s :
  (exists d, root_device s = (Return d, s)) \/
  root_device s = (Raise AssertionError, s) \/
  root_device s = (Raise IndexError, s).
Proof.
  unfold root_device. rewrite run_bind. simpl.
  destruct (parallel_devices (host s)) as [l|]; [|by right; left].
  destruct (py_index l local_rank); [left; eauto|by right; right].
Qed.

Lemma model_to_device_bound s d :
  root_device s = (Return d, s) ->
  model_to_device s =
  match model (host s) with
  | Some _ =>
      (Return tt, State (host s) (_exit_stack s) (trace s ++ placement d))
  | None =>
      (Raise AssertionError,
       State (host s) (_exit_stack s)
         (trace s ++ if String.eqb (dev_type d) "cuda"
                     then [torch_cuda_set_device d] else []))
  end.
Proof.
  intros E. unfold model_to_device, placement. rewrite run_bind, E.
  destruct (String.eqb (dev_type d) "cuda").
  - rewrite run_bind. simpl. rewrite run_bind. simpl.
    destruct (model (host s)); [|reflexivity].
    unfold emit, modify. simpl. by rewrite <- app_assoc.
  - rewrite run_bind, run_ret, run_bind. simpl.
    destruct (model (host s)); [reflexivity|].
    rewrite app_nil_r. by destruct s.
Qed.

Lemma model_to_device_unbound s e :
  root_device s = (Raise e, s) -> model_to_device s = (Raise e, s).
Proof. intros E. unfold model_to_device. by rewrite run_bind, E. Qed.

(** X4.
    [model_to_device] tests the model only after it has selected the
    device: when the root device is a CUDA device and no model is attached,
    [torch.cuda.set_device] has been called by the time [AssertionError] is
    raised, and [model.to] has not.  With a model attached both calls are
    made, in that order, and nothing else changes; on any other device type
    only [model.to] is called.  When [root_device] raises, the same error
    comes out and nothing is called. *)
Theorem model_to_device_effects s :
  (forall e, root_device s = (Raise e, s) ->
     model_to_device s = (Raise e, s)) /\
  (forall d, root_device s = (Return d, s) ->
     (forall m, model (host s) = Some m ->
        model_to_device s =
        (Return tt,
         State (host s) (_exit_stack s)
           (trace s ++ (if String.eqb (dev_type d) "cuda"
                        then [torch_cuda_set_device d; model_to d]
                        else [model_to d])))) /\
     (model (host s) = None ->
        model_to_device s =
        (Raise AssertionError,
         State (host s) (_exit_stack s)
           (trace s ++ (if String.eqb (dev_type d) "cuda"
                        then [torch_cuda_set_device d] else []))))).
Proof.
  split; [intros e; apply model_to_device_unbound|].
  intros d E. rewrite (model_to_device_bound _ _ E). split.
  - intros m ->. unfold placement.
    by destruct (String.eqb (dev_type d) "cuda").
  - by intros ->.
Qed.

(** ** Collectives and the barrier *)

Lemma reduce_recognized (v : pyval) (op : reduce_op_arg) s :
  op ∈ recognized_tokens ->
  reduce v None op s = (join ;; call_allreduce v (selected_op op)) s.
Proof.
  intros Hop. unfold selected_op. apply elem_of_app in Hop as [Ha|Hs].
  - rewrite (reduce_averaging _ _ _ Ha).
    apply py_in_elem_of in Ha. by rewrite Ha.
  - rewrite (reduce_summing _ _ _ Hs).
    destruct (py_in op averaging_tokens) eqn:Ha; [|reflexivity].
    exfalso. apply py_in_elem_of in Ha.
    unfold summing_tokens in Hs. unfold averaging_tokens in Ha.
    repeat (apply elem_of_cons in Hs as [->|Hs];
            [repeat (apply elem_of_cons in Ha as [Ha|Ha];
                     [discriminate Ha|]);
             by apply elem_of_nil in Ha|]).
    by apply elem_of_nil in Hs.
Qed.

Lemma join_unbound s e :
  root_device s = (Raise e, s) -> join s = (Raise e, s).
Proof. intros E. unfold join. by rewrite run_bind, E. Qed.

(** X5.
    [reduce] touches nothing but the trace, and only in one way.  Either it
    raises one of its own errors (a [ValueError] from the group or
    [reduce_op] test, or the [AssertionError] or [IndexError] of
    [root_device]) and the state is exactly as before; or it appends one
    [hvd.join] followed by one [hvd.allreduce] on the value it was given,
    and its outcome is the backend's answer.  No join is ever issued without
    the allreduce after it. *)
Theorem reduce_calls_in_order (v : pyval) (g : option process_group)
    (op : reduce_op_arg) s :
  (snd (reduce v g op s) = s /\
   (fst (reduce v g op s) = Raise (ValueError allreduce_subcommunicator) \/
    fst (reduce v g op s) = Raise (ValueError (unrecognized_reduce_op op)) \/
    fst (reduce v g op s) = Raise AssertionError \/
    fst (reduce v g op s) = Raise IndexError)) \/
  (exists d,
     root_device s = (Return d, s) /\
     g = None /\ op ∈ recognized_tokens /\
     reduce v g op s =
     (answered (allreduce v (selected_op op)),
      State (host s) (_exit_stack s)
        (trace s ++ [hvd_join (join_argument d);
                     hvd_allreduce v (selected_op op)]))).
Proof.
  destruct g as [p|]; [left; split; [reflexivity|by left]|].
  destruct (decide (op ∈ recognized_tokens)) as [Hop|Hop].
  - rewrite (reduce_recognized _ _ _ Hop), run_bind.
    destruct (root_device_cases s) as [[d Hd]|[Hr|Hr]].
    + right. exists d. split; [exact Hd|]. split; [reflexivity|].
      split; [exact Hop|].
      rewrite (join_bound _ _ Hd), call_allreduce_run. unfold joined. simpl.
      by rewrite <- app_assoc.
    + left. rewrite (join_unbound _ _ Hr).
      split; [reflexivity|]. right. right. by left.
    + left. rewrite (join_unbound _ _ Hr).
      split; [reflexivity|]. by do 3 right.
  - left. rewrite (reduce_unrecognized _ _ _ Hop).
    split; [reflexivity|]. right. by left.
Qed.

Lemma all_gather_unbound (t : tensor) (g : option process_group)
    (sync_grads : bool) s e :
  g = None \/ g = WORLD ->
  root_device s = (Raise e, s) ->
  all_gather t g sync_grads s = (Raise e, s).
Proof.
  intros Hg Hr. rewrite (all_gather_accepted _ _ _ _ Hg), run_bind.
  assert (Hj : forall x, (join ;; call_allgather x) s = (Raise e, s)).
  { intros x. by rewrite run_bind, (join_unbound _ _ Hr). }
  destruct (shape t) as [|k sh] eqn:Esh; simpl.
  - unfold reshape. rewrite Esh. simpl. apply Hj.
  - apply Hj.
Qed.

Lemma all_gather_rejected (t : tensor) (g : option process_group)
    (sync_grads : bool) s :
  ~ (g = None \/ g = WORLD) ->
  all_gather t g sync_grads s =
  (Raise (ValueError allgather_subcommunicator), s).
Proof.
  intros Hg. unfold all_gather.
  rewrite bool_decide_eq_true_2 by (intros ->; apply Hg; by left).
  rewrite bool_decide_eq_true_2 by (intros ->; apply Hg; by right).
  reflexivity.
Qed.

(** X6.
    [all_gather] follows the same discipline: an error of its own leaves
    the state as it was; otherwise it appends one [hvd.join] and one
    [hvd.allgather] and answers with the backend's result.  The tensor
    gathered has the entries of the input, with the input's shape or, for a
    0-dimensional input, shape [[1]]; the reshape can never fail, so
    [RuntimeError] is never raised.  [sync_grads] has no effect. *)
Theorem all_gather_calls_in_order (t : tensor) (g : option process_group)
    (sync_grads : bool) s :
  all_gather t g sync_grads s = all_gather t g (negb sync_grads) s /\
  fst (all_gather t g sync_grads s) <> Raise RuntimeError /\
  ((snd (all_gather t g sync_grads s) = s /\
    (fst (all_gather t g sync_grads s)
       = Raise (ValueError allgather_subcommunicator) \/
     fst (all_gather t g sync_grads s) = Raise AssertionError \/
     fst (all_gather t g sync_grads s) = Raise IndexError)) \/
   (exists d x,
      root_device s = (Return d, s) /\
      data x = data t /\
      shape x = match shape t with [] => [1%nat] | _ => shape t end /\
      all_gather t g sync_grads s =
      (answered (allgather x),
       State (host s) (_exit_stack s)
         (trace s ++ [hvd_join (join_argument d); hvd_allgather x])))).
Proof.
  split; [reflexivity|].
  destruct (decide (g = None \/ g = WORLD)) as [Hg|Hg].
  - destruct (root_device_cases s) as [[d Hd]|[Hr|Hr]].
    + pose proof (all_gather_run t g sync_grads s d Hg Hd) as E.
      simpl in E. rewrite E. simpl. split.
      * destruct (allgather _); discriminate.
      * right. eexists d, _. split; [exact Hd|].
        split; [|split; [|reflexivity]].
        -- by destruct (Nat.eqb (length (shape t)) 0).
        -- destruct (shape t) as [|k sh] eqn:Esh; simpl; [reflexivity|].
           exact Esh.
    + rewrite (all_gather_unbound _ _ _ _ _ Hg Hr). split; [discriminate|].
      left. split; [reflexivity|]. right. by left.
    + rewrite (all_gather_unbound _ _ _ _ _ Hg Hr). split; [discriminate|].
      left. split; [reflexivity|]. right. by right.
  - rewrite (all_gather_rejected _ _ _ _ Hg). split; [discriminate|].
    left. split; [reflexivity|]. by left.
Qed.

(** X7.
    [barrier] is [join] behind a gate.  While torch.distributed is not
    available it returns at once, calls nothing and cannot raise, not even
    on a strategy without devices; when it is available the barrier is the
    join, with the join's errors.  Either way the attributes and the exit
    stack are left alone. *)
Theorem barrier_gated (available : bool) s :
  barrier false s = (Return tt, s) /\
  (forall d, root_device s = (Return d, s) ->
     barrier true s =
     (Return tt,
      State (host s) (_exit_stack s)
        (trace s ++ [hvd_join (join_argument d)]))) /\
  (forall e, root_device s = (Raise e, s) -> barrier true s = (Raise e, s)) /\
  host (snd (barrier available s)) = host s /\
  _exit_stack (snd (barrier available s)) = _exit_stack s.
Proof.
  split; [reflexivity|]. split; [intros d Hd; apply (join_bound _ _ Hd)|].
  split; [intros e; apply join_unbound|].
  destruct available; simpl; [|done].
  unfold barrier.
  destruct (root_device_cases s) as [[d Hd]|[Hr|Hr]].
  - by rewrite (join_bound _ _ Hd).
  - by rewrite (join_unbound _ _ Hr).
  - by rewrite (join_unbound _ _ Hr).
Qed.

(** ** [setup], stage by stage *)

Lemma setup_after_base (tr : Trainer) s d m h :
  root_device s = (Return d, s) ->
  model (host s) = Some m ->
  ParallelStrategy_setup tr (host s) = (Return tt, h) ->
  setup times tr s =
  (if negb (training tr) then mret tt else training_branch times tr)
    (at_training_test s d h).
Proof.
  intros Hd Hm Hbase. rewrite setup_unfold, run_bind.
  rewrite (model_to_device_bound _ _ Hd), Hm.
  rewrite run_bind. unfold super at 1. simpl. rewrite Hbase.
  rewrite run_bind. simpl. rewrite run_bind. simpl.
  unfold at_training_test. by rewrite <- app_assoc.
Qed.

Lemma setup_base_raises (tr : Trainer) s d m e h :
  root_device s = (Return d, s) ->
  model (host s) = Some m ->
  ParallelStrategy_setup tr (host s) = (Raise e, h) ->
  setup times tr s =
  (Raise e, State h (_exit_stack s) (trace s ++ placement d)).
Proof.
  intros Hd Hm Hbase. rewrite setup_unfold, run_bind.
  rewrite (model_to_device_bound _ _ Hd), Hm.
  rewrite run_bind. unfold super at 1. simpl. by rewrite Hbase.
Qed.

Lemma stays_local_placement (d : device) :
  Forall stays_local (placement (num:=num) d).
Proof.
  unfold placement. destruct (String.eqb (dev_type d) "cuda");
    repeat constructor.
Qed.

(** X8.
    With a trainer that is not training, [setup] places the model, runs the
    base-class setup and creates the exit stack, and that is all: the state
    it leaves is the one the base class returned, with an empty exit stack,
    so no learning rate is scaled and no optimizer wrapped.  Whatever the
    outcome, every call it adds to the trace is a device call or the entry
    of the exit stack: nothing is broadcast and the factory is not
    called. *)
Theorem setup_not_training (tr : Trainer) s :
  training tr = false ->
  (forall d m h,
     root_device s = (Return d, s) ->
     model (host s) = Some m ->
     ParallelStrategy_setup tr (host s) = (Return tt, h) ->
     setup times tr s =
     (Return tt,
      State h (Some {| entered := [] |})
        (trace s ++ placement d ++ [ExitStack_enter]))) /\
  (exists calls,
     trace (snd (setup times tr s)) = trace s ++ calls /\
     Forall stays_local calls) /\
  (host (snd (setup times tr s)) = host s \/
   host (snd (setup times tr s)) = snd (ParallelStrategy_setup tr (host s))).
Proof.
  intros Htr.
  assert (Hrun : forall d m h,
     root_device s = (Return d, s) ->
     model (host s) = Some m ->
     ParallelStrategy_setup tr (host s) = (Return tt, h) ->
     setup times tr s = (Return tt, at_training_test s d h)).
  { intros d m h Hd Hm Hbase.
    rewrite (setup_after_base tr s d m h Hd Hm Hbase), Htr. reflexivity. }
  split; [exact Hrun|].
  destruct (root_device_cases s) as [[d Hd]|Hr].
  - destruct (model (host s)) as [m|] eqn:Hm.
    + destruct (ParallelStrategy_setup tr (host s)) as [[[]|e] h] eqn:Hbase.
      * rewrite (Hrun d m h Hd eq_refl eq_refl). simpl. split; [|by right].
        eexists. split; [reflexivity|].
        apply Forall_app. split; [apply stays_local_placement|].
        by repeat constructor.
      * rewrite (setup_base_raises tr s d m e h Hd Hm Hbase). simpl.
        split; [|by right].
        eexists. split; [reflexivity|apply stays_local_placement].
    + rewrite setup_unfold, run_bind, (model_to_device_bound _ _ Hd), Hm.
      simpl. split; [|by left].
      eexists. split; [reflexivity|].
      destruct (String.eqb (dev_type d) "cuda"); by repeat constructor.
  - assert (E : snd (setup times tr s) = s).
    { rewrite setup_unfold, run_bind.
      destruct Hr as [Hr|Hr];
        by rewrite (model_to_device_unbound _ _ Hr). }
    rewrite E. split; [|by left].
    exists []. by rewrite app_nil_r.
Qed.

(** *** The scaling loop when a key is missing *)

Lemma scale_group_has_lr_inv store g g' :
  has_lr (scale_group times store g) g' -> has_lr store g'.
Proof.
  unfold has_lr, scale_group.
  destruct (pg_lr (the_group store g)) as [lr|] eqn:E; [|done].
  destruct (decide (g = g')) as [->|Hne].
  - intros _. rewrite E. eauto.
  - unfold the_group at 1. by rewrite lookup_insert_ne.
Qed.

Lemma fold_scale_group_has_lr gs store g :
  has_lr (fold_left (scale_group times) gs store) g <-> has_lr store g.
Proof.
  revert store. induction gs as [|x gs IH]; intros store; [done|].
  simpl. rewrite IH. split.
  - apply scale_group_has_lr_inv.
  - apply scale_group_has_lr.
Qed.

Lemma scale_lr_missing g s :
  pg_lr (the_group (group_store (host s)) g) = None ->
  scale_lr times g s = (Raise (KeyError "lr"), s).
Proof.
  intros E. unfold scale_lr. rewrite run_bind. simpl. by rewrite E.
Qed.

Lemma for_each_scale_lr_missing pre g post s :
  Forall (has_lr (group_store (host s))) pre ->
  pg_lr (the_group (group_store (host s)) g) = None ->
  for_each (pre ++ g :: post) (scale_lr times) s =
  (Raise (KeyError "lr"),
   State (with_group_store
            (fold_left (scale_group times) pre (group_store (host s)))
            (host s))
     (_exit_stack s) (trace s)).
Proof.
  intros Hpre Hg. rewrite for_each_app, run_bind.
  rewrite (for_each_scale_lr _ _ Hpre). simpl. rewrite run_bind.
  rewrite scale_lr_missing; [reflexivity|]. simpl.
  destruct (pg_lr (the_group (fold_left (scale_group times) pre
                                (group_store (host s))) g)) as [lr|] eqn:E;
    [|reflexivity].
  exfalso.
  assert (has_lr (group_store (host s)) g) as [lr' Hlr'].
  { apply (fold_scale_group_has_lr pre). unfold has_lr. rewrite E. eauto. }
  congruence.
Qed.

(** The first element of a list that fails a decidable test. *)
Lemma first_failure {A : Type} (P : A -> Prop) `{!forall x, Decision (P x)}
    (l : list A) :
  ~ Forall P l ->
  exists pre x post, l = pre ++ x :: post /\ Forall P pre /\ ~ P x.
Proof.
  induction l as [|y l IH]; intros Hnot.
  - destruct Hnot. constructor.
  - destruct (decide (P y)) as [Hy|Hy].
    + destruct IH as (pre & x & post & -> & Hpre & Hx).
      { intros Hl. apply Hnot. by constructor. }
      exists (y :: pre), x, post. split; [reflexivity|].
      split; [by constructor|exact Hx].
    + exists [], y, l. split; [reflexivity|]. split; [constructor|exact Hy].
Qed.

(** *** Entering the contexts *)

Lemma for_each_enter_context_result ws s st :
  _exit_stack s = Some st ->
  Forall (fun w => is_Some (distributed w)) ws ->
  for_each ws enter_context s =
  (Return tt,
   State (host s) (Some {| entered := rev ws ++ entered st |})
     (trace s ++ map skip_synchronize_enter ws)).
Proof.
  revert s st. induction ws as [|w ws IH]; intros s st Hst Hall.
  - simpl. rewrite run_ret, app_nil_r. destruct st as [l]. simpl.
    rewrite <- Hst. by destruct s.
  - inversion Hall as [|? ? [cfg Hw] Hrest]; subst. simpl.
    rewrite run_bind. unfold enter_context at 1. rewrite run_bind. simpl.
    rewrite Hst, Hw. rewrite run_bind. simpl.
    rewrite (IH _ {| entered := w :: entered st |}); [|reflexivity|exact Hrest].
    simpl. by rewrite <- !app_assoc.
Qed.

Lemma enter_context_refused w s st :
  _exit_stack s = Some st ->
  distributed w = None ->
  enter_context w s = (Raise (AttributeError "skip_synchronize"), s).
Proof.
  intros Hst Hw. unfold enter_context. rewrite run_bind. simpl.
  by rewrite Hst, Hw.
Qed.

Lemma for_each_enter_context_refused pre w post s st :
  _exit_stack s = Some st ->
  Forall (fun w => is_Some (distributed w)) pre ->
  distributed w = None ->
  for_each (pre ++ w :: post) enter_context s =
  (Raise (AttributeError "skip_synchronize"),
   State (host s) (Some {| entered := rev pre ++ entered st |})
     (trace s ++ map skip_synchronize_enter pre)).
Proof.
  intros Hst Hpre Hw. rewrite for_each_app, run_bind.
  rewrite (for_each_enter_context_result _ _ _ Hst Hpre). simpl.
  rewrite run_bind.
  by rewrite (enter_context_refused w _ {| entered := rev pre ++ entered st |}).
Qed.

(** *** The training branch, outcome by outcome *)

(** The state after the two scaling loops and the broadcasts. *)
Lemma training_branch_scaled (tr : Trainer) s :
  Forall (has_lr (group_store (host s))) (visited_groups (host s)) ->
  training_branch times tr s =
  match lightning_module (host s) with
  | None =>
      (Raise AssertionError,
       State (scaled times (host s)) (_exit_stack s) (trace s))
  | Some lm =>
      (for_each (installed times tr lm (host s)) enter_context)
        (State (with_optimizers (map Raw (installed times tr lm (host s)))
                  (scaled times (host s)))
           (_exit_stack s)
           (trace s ++ [hvd_broadcast_parameters 0]
              ++ map (fun opt => hvd_broadcast_optimizer_state opt 0)
                     (unwrapped (host s))
              ++ factory_calls (scaled_groups times (host s)) lm
                   (accumulate_grad_batches tr) (unwrapped (host s))))
  end.
Proof.
  intros Hlr. unfold training_branch. rewrite run_bind. simpl.
  rewrite run_bind, for_each_nested, map_map.
  fold (visited_groups (host s)). rewrite (for_each_scale_lr _ _ Hlr).
  rewrite run_bind. simpl. rewrite run_bind, for_each_scale_base_lrs. simpl.
  rewrite run_bind. simpl.
  destruct (lightning_module (host s)) as [lm|] eqn:Hlm; [|reflexivity].
  rewrite run_bind. simpl. rewrite run_bind, for_each_emit. simpl.
  rewrite run_bind.
  rewrite (_wrap_optimizers_attached _ _ _ lm); [|exact Hlm].
  rewrite comprehension_wrap_result. simpl.
  rewrite run_bind. simpl.
  unfold installed, unwrapped, scaled, scaled_groups, scaled_schedulers.
  simpl. by rewrite <- !app_assoc.
Qed.

Lemma training_branch_missing_lr (tr : Trainer) s pre g post :
  visited_groups (host s) = pre ++ g :: post ->
  Forall (has_lr (group_store (host s))) pre ->
  pg_lr (the_group (group_store (host s)) g) = None ->
  training_branch times tr s =
  (Raise (KeyError "lr"),
   State (with_group_store
            (fold_left (scale_group times) pre (group_store (host s)))
            (host s))
     (_exit_stack s) (trace s)).
Proof.
  intros Hsplit Hpre Hg. unfold training_branch. rewrite run_bind. simpl.
  rewrite run_bind, for_each_nested, map_map.
  fold (visited_groups (host s)). rewrite Hsplit.
  by rewrite (for_each_scale_lr_missing _ _ _ _ Hpre Hg).
Qed.

(** What holds of a training branch that returns. *)
Lemma training_branch_returned_inv (tr : Trainer) s s2 st :
  _exit_stack s = Some st ->
  training_branch times tr s = (Return tt, s2) ->
  Forall (has_lr (group_store (host s))) (visited_groups (host s)) /\
  exists lm,
    lightning_module (host s) = Some lm /\
    Forall (fun w => is_Some (distributed w)) (installed times tr lm (host s)).
Proof.
  intros Hst E.
  destruct (decide (Forall (has_lr (group_store (host s)))
                      (visited_groups (host s)))) as [Hlr|Hlr].
  - split; [exact Hlr|]. rewrite (training_branch_scaled tr s Hlr) in E.
    destruct (lightning_module (host s)) as [lm|]; [|discriminate].
    exists lm. split; [reflexivity|].
    destruct (decide (Forall (fun w => is_Some (distributed w))
                        (installed times tr lm (host s)))) as [Hd|Hd];
      [exact Hd|].
    exfalso.
    destruct (first_failure _ _ Hd) as (pre & w & post & Hsplit & Hpre & Hw).
    rewrite Hsplit in E at 1.
    rewrite (for_each_enter_context_refused pre w post _ st) in E;
      [discriminate|exact Hst|exact Hpre|].
    destruct (distributed w); [|reflexivity]. destruct Hw. eauto.
  - exfalso.
    destruct (first_failure _ _ Hlr) as (pre & g & post & Hsplit & Hpre & Hg).
    rewrite (training_branch_missing_lr tr s pre g post Hsplit Hpre) in E;
      [discriminate|].
    unfold has_lr in Hg.
    destruct (pg_lr (the_group (group_store (host s)) g)); [|reflexivity].
    destruct Hg. eauto.
Qed.

Lemma training_branch_result (tr : Trainer) s st lm :
  _exit_stack s = Some st ->
  Forall (has_lr (group_store (host s))) (visited_groups (host s)) ->
  lightning_module (host s) = Some lm ->
  Forall (fun w => is_Some (distributed w)) (installed times tr lm (host s)) ->
  training_branch times tr s =
  (Return tt,
   State (with_optimizers (map Raw (installed times tr lm (host s)))
            (scaled times (host s)))
     (Some {| entered := rev (installed times tr lm (host s)) ++ entered st |})
     (trace s ++ tail (training_calls times tr lm (host s)))).
Proof.
  intros Hst Hlr Hlm Hd. rewrite (training_branch_scaled tr s Hlr), Hlm.
  rewrite (for_each_enter_context_result _ _ st); [|exact Hst|exact Hd].
  unfold training_calls. simpl. rewrite <- !app_assoc. simpl.
  by rewrite <- !app_assoc.
Qed.

Lemma ready_to_train_intro (F : HorovodFactory) (tr : Trainer) h lm :
  Forall (has_lr (group_store h)) (visited_groups h) ->
  lightning_module h = Some lm ->
  Forall (fun w => is_Some (distributed w)) (installed times tr lm h) ->
  ready_to_train h = true.
Proof.
  intros Hlr Hlm Hd. unfold ready_to_train.
  apply andb_true_intro. split; [apply andb_true_intro; split|].
  - apply forallb_forall. intros g Hg. apply bool_decide_eq_true.
    rewrite Forall_forall in Hlr. apply Hlr. by apply list_elem_of_In.
  - apply bool_decide_eq_true. rewrite Hlm. eauto.
  - apply forallb_forall. intros o Ho. simpl.
    destruct (backend_native (_unpack_lightning_optimizer o)) eqn:Hn;
      [|reflexivity].
    simpl. apply bool_decide_eq_true.
    rewrite Forall_forall in Hd.
    assert (Hin : wrapped (scaled_groups times h) lm
                    (accumulate_grad_batches tr)
                    (_unpack_lightning_optimizer o)
                  ∈ installed times tr lm h).
    { unfold installed, unwrapped.
      change (map ?f ?x) with (f <$> x).
      apply list_elem_of_fmap. eexists. split; [reflexivity|].
      apply list_elem_of_fmap. exists o. split; [reflexivity|].
      by apply list_elem_of_In. }
    specialize (Hd _ Hin). unfold wrapped in Hd. by rewrite Hn in Hd.
Qed.

(** ** [setup] as a whole *)

Lemma setup_reaches_training (tr : Trainer) s d h :
  reaches_training tr s d h ->
  setup times tr s = training_branch times tr (at_training_test s d h).
Proof.
  intros (Htr & Hd & [m Hm] & Hbase).
  rewrite (setup_after_base tr s d m h Hd Hm Hbase), Htr. reflexivity.
Qed.

Lemma setup_completed_reaches (tr : Trainer) s s2 :
  training tr = true ->
  setup times tr s = (Return tt, s2) ->
  exists d h, reaches_training tr s d h.
Proof.
  intros Htr E.
  destruct (root_device_cases s) as [[d Hd]|Hr].
  - exists d.
    destruct (model (host s)) as [m|] eqn:Hm.
    + destruct (ParallelStrategy_setup tr (host s)) as [[[]|e] h] eqn:Hbase.
      * exists h. repeat split; eauto.
      * rewrite (setup_base_raises tr s d m e h Hd Hm Hbase) in E.
        discriminate.
    + rewrite setup_unfold, run_bind, (model_to_device_bound _ _ Hd), Hm in E.
      discriminate.
  - rewrite setup_unfold, run_bind in E.
    destruct Hr as [Hr|Hr];
      rewrite (model_to_device_unbound _ _ Hr) in E; discriminate.
Qed.

Lemma unpack_raw (ws : list optimizer) :
  map _unpack_lightning_optimizer (map Raw ws) = ws.
Proof. induction ws as [|w ws IH]; simpl; [done|by rewrite IH]. Qed.

(** The state a completed training [setup] leaves. *)
Lemma setup_completed (tr : Trainer) s s2 :
  training tr = true ->
  setup times tr s = (Return tt, s2) ->
  exists d h lm,
    reaches_training tr s d h /\
    lightning_module h = Some lm /\
    Forall (has_lr (group_store h)) (visited_groups h) /\
    Forall (fun w => is_Some (distributed w)) (installed times tr lm h) /\
    s2 = State (with_optimizers (map Raw (installed times tr lm h))
                  (scaled times h))
           (Some {| entered := rev (installed times tr lm h) |})
           (trace s ++ placement d ++ training_calls times tr lm h).
Proof.
  intros Htr E.
  destruct (setup_completed_reaches tr s s2 Htr E) as (d & h & Hreach).
  rewrite (setup_reaches_training tr s d h Hreach) in E.
  destruct (training_branch_returned_inv tr (at_training_test s d h) s2
              {| entered := [] |} eq_refl E) as (Hlr & lm & Hlm & Hdist).
  exists d, h, lm. repeat (split; [assumption|]).
  rewrite (training_branch_result tr (at_training_test s d h)
             {| entered := [] |} lm eq_refl Hlr Hlm Hdist) in E.
  inversion E. simpl. rewrite app_nil_r. f_equal.
  unfold training_calls. simpl. by rewrite <- !app_assoc.
Qed.

(** X9.
    In training mode [setup] completes exactly when it reaches its training
    test (device bound, model attached, base-class setup returning) on a
    state that is ready to train: every parameter group reached has an
    ["lr"] key, a Lightning module is attached, and every optimizer that
    passes the class-name test offers [skip_synchronize()].  The factory is
    taken to return Horovod optimizers. *)
Theorem setup_completes_iff_ready (F : HorovodFactory) (tr : Trainer) s :
  training tr = true ->
  ((exists s2, setup times tr s = (Return tt, s2)) <->
   (exists d h, reaches_training tr s d h /\ ready_to_train h = true)).
Proof.
  intros Htr. split.
  - intros [s2 E].
    destruct (setup_completed tr s s2 Htr E)
      as (d & h & lm & Hreach & Hlm & Hlr & Hdist & _).
    exists d, h. split; [exact Hreach|].
    by eapply (ready_to_train_intro F tr h lm).
  - intros (d & h & (_ & Hd & [m Hm] & Hbase) & Hready).
    by eapply setup_training_run.
Qed.

(** X10.
    A completed training [setup] replaces [self.optimizers] by the wrapped
    optimizers: as many as before, in the same order, the Lightning
    decorations removed, an optimizer that passes the class-name test kept
    as it is and any other replaced by the factory's product for it.  All of
    them offer [skip_synchronize()], and the exit stack holds exactly one
    context per optimizer, the last optimizer's on top. *)
Theorem setup_installs_wrapped_optimizers (tr : Trainer) s s2 :
  training tr = true ->
  setup times tr s = (Return tt, s2) ->
  exists d h lm,
    reaches_training tr s d h /\
    lightning_module h = Some lm /\
    optimizers (host s2) = map Raw (installed times tr lm h) /\
    length (optimizers (host s2)) = length (optimizers h) /\
    Forall2 (fun o w =>
               w = if backend_native (_unpack_lightning_optimizer o)
                   then _unpack_lightning_optimizer o
                   else DistributedOptimizer (_unpack_lightning_optimizer o)
                          (accumulate_grad_batches tr)
                          (owned_named_parameters (group_store (host s2)) lm
                             (_unpack_lightning_optimizer o)))
            (optimizers h) (installed times tr lm h) /\
    Forall (fun w => is_Some (distributed w)) (installed times tr lm h) /\
    _exit_stack s2 = Some {| entered := rev (installed times tr lm h) |}.
Proof.
  intros Htr E.
  destruct (setup_completed tr s s2 Htr E)
    as (d & h & lm & Hreach & Hlm & Hlr & Hdist & ->).
  exists d, h, lm. simpl.
  split; [exact Hreach|]. split; [exact Hlm|]. split; [reflexivity|].
  split; [unfold installed, unwrapped; by rewrite !length_map|].
  split; [|by split].
  unfold installed, unwrapped, wrapped.
  induction (optimizers h) as [|o opts IH]; simpl; constructor; done.
Qed.

(** X11.
    The calls of a completed training [setup] come in one order: the device
    placement; the entry of the exit stack; the broadcast of the module's
    parameters from rank 0; the broadcast of each optimizer's state from
    rank 0, for the unwrapped optimizers in list order; the factory calls;
    and last the entry of each wrapped optimizer's [skip_synchronize()]
    context, in list order.  Every broadcast precedes every wrapping. *)
Theorem setup_call_order (tr : Trainer) s s2 :
  training tr = true ->
  setup times tr s = (Return tt, s2) ->
  exists d h lm,
    reaches_training tr s d h /\
    lightning_module h = Some lm /\
    trace s2 =
      trace s ++ placement d
      ++ [ExitStack_enter; hvd_broadcast_parameters 0]
      ++ map (fun opt => hvd_broadcast_optimizer_state opt 0) (unwrapped h)
      ++ factory_calls (group_store (host s2)) lm (accumulate_grad_batches tr)
           (unwrapped h)
      ++ map skip_synchronize_enter
           (map _unpack_lightning_optimizer (optimizers (host s2))).
Proof.
  intros Htr E.
  destruct (setup_completed tr s s2 Htr E)
    as (d & h & lm & Hreach & Hlm & Hlr & Hdist & ->).
  exists d, h, lm. split; [exact Hreach|]. split; [exact Hlm|]. simpl.
  by rewrite unpack_raw.
Qed.

(** X12.
    When a parameter group reached by the scaling loop has no ["lr"] key,
    [setup] raises [KeyError] there and then, and does not undo what it has
    done: the groups visited before keep their scaled learning rates, the
    exit stack stays created, and neither a scheduler nor the backend has
    been touched. *)
Theorem setup_missing_lr (tr : Trainer) s d h pre g post :
  reaches_training tr s d h ->
  visited_groups h = pre ++ g :: post ->
  Forall (has_lr (group_store h)) pre ->
  pg_lr (the_group (group_store h) g) = None ->
  setup times tr s =
  (Raise (KeyError "lr"),
   State (with_group_store
            (fold_left (scale_group times) pre (group_store h)) h)
     (Some {| entered := [] |})
     (trace s ++ placement d ++ [ExitStack_enter])).
Proof.
  intros Hreach Hsplit Hpre Hg.
  rewrite (setup_reaches_training tr s d h Hreach).
  by rewrite (training_branch_missing_lr tr (at_training_test s d h)
                pre g post Hsplit Hpre Hg).
Qed.

(** X13.
    The Lightning module is tested only after both scaling loops: without
    one, [setup] raises [AssertionError] with every learning rate and every
    [base_lrs] entry already scaled, and with nothing broadcast. *)
Theorem setup_without_module (tr : Trainer) s d h :
  reaches_training tr s d h ->
  Forall (has_lr (group_store h)) (visited_groups h) ->
  lightning_module h = None ->
  setup times tr s =
  (Raise AssertionError,
   State (scaled times h) (Some {| entered := [] |})
     (trace s ++ placement d ++ [ExitStack_enter])).
Proof.
  intros Hreach Hlr Hlm.
  rewrite (setup_reaches_training tr s d h Hreach).
  rewrite (training_branch_scaled tr (at_training_test s d h) Hlr).
  simpl. by rewrite Hlm.
Qed.

(** X14.
    The class-name test can take an optimizer for a Horovod one when it is
    not: an optimizer whose class string contains ["horovod"] but which has
    no [skip_synchronize()] is left unwrapped and installed as it is, and
    [setup] then raises [AttributeError] at the first installed optimizer
    without that method.  By then everything before has been done and stays
    done: the learning rates and [base_lrs] are scaled, the parameters and
    every optimizer's state have been broadcast, the factory has been
    called for the other optimizers, [self.optimizers] holds the installed
    list, and the contexts of the optimizers before the failing one are
    entered on the stack. *)
Theorem setup_with_mistaken_optimizer (tr : Trainer) s d h lm o :
  reaches_training tr s d h ->
  Forall (has_lr (group_store h)) (visited_groups h) ->
  lightning_module h = Some lm ->
  o ∈ unwrapped h ->
  backend_native o = true ->
  distributed o = None ->
  o ∈ installed times tr lm h /\
  exists pre w post,
    installed times tr lm h = pre ++ w :: post /\
    Forall (fun w => is_Some (distributed w)) pre /\
    distributed w = None /\
    setup times tr s =
    (Raise (AttributeError "skip_synchronize"),
     State (with_optimizers (map Raw (installed times tr lm h))
              (scaled times h))
       (Some {| entered := rev pre |})
       (trace s ++ placement d
          ++ [ExitStack_enter; hvd_broadcast_parameters 0]
          ++ map (fun opt => hvd_broadcast_optimizer_state opt 0)
                 (unwrapped h)
          ++ factory_calls (scaled_groups times h) lm
               (accumulate_grad_batches tr) (unwrapped h)
          ++ map skip_synchronize_enter pre)).
Proof.
  intros Hreach Hlr Hlm Ho Hnat Hdist.
  assert (Hin : o ∈ installed times tr lm h).
  { unfold installed. change (map ?f ?x) with (f <$> x).
    apply list_elem_of_fmap. exists o. split; [|exact Ho].
    unfold wrapped. by rewrite Hnat. }
  split; [exact Hin|].
  assert (Hnot : ~ Forall (fun w => is_Some (distributed w))
                     (installed times tr lm h)).
  { intros Hall. rewrite Forall_forall in Hall.
    destruct (Hall _ Hin) as [cfg Hcfg]. congruence. }
  destruct (first_failure _ _ Hnot) as (pre & w & post & Hsplit & Hpre & Hw).
  assert (Hnone : distributed w = None).
  { destruct (distributed w); [|reflexivity]. destruct Hw. eauto. }
  exists pre, w, post. repeat (split; [assumption|]).
  rewrite (setup_reaches_training tr s d h Hreach).
  rewrite (training_branch_scaled tr (at_training_test s d h) Hlr).
  simpl. rewrite Hlm.
  match goal with
  | |- context [for_each _ enter_context ?s0] => set (s1 := s0)
  end.
  rewrite Hsplit at 1.
  rewrite (for_each_enter_context_refused pre w post s1 {| entered := [] |}
             eq_refl Hpre Hnone).
  subst s1. simpl. rewrite app_nil_r. f_equal. f_equal.
  rewrite <- !app_assoc. simpl. by rewrite <- !app_assoc.
Qed.

(** ** Teardown on an open stack, and after [setup] *)

(** X15.
    With the exit stack open, [teardown] first closes it, leaving the
    contexts latest first, and resets the handle; then it joins; then it
    runs the base-class teardown.  When the join's device lookup raises,
    the stack has been closed all the same, but the base-class teardown is
    not run. *)
Theorem teardown_exits_latest_first s st :
  _exit_stack s = Some st ->
  (forall d, root_device s = (Return d, s) ->
     teardown s =
     super ParallelStrategy_teardown
       (State (host s) None
          (trace s ++ ExitStack_exit :: map skip_synchronize_exit (entered st)
             ++ [hvd_join (join_argument d)]))) /\
  (forall e, root_device s = (Raise e, s) ->
     teardown s =
     (Raise e,
      State (host s) None
        (trace s ++ ExitStack_exit :: map skip_synchronize_exit (entered st)))).
Proof.
  intros Hst. rewrite (teardown_open _ _ Hst). split.
  - intros d Hd. rewrite run_bind.
    rewrite (join_bound _ d); [|].
    + unfold joined. simpl. by rewrite <- app_assoc.
    + revert Hd. unfold root_device. rewrite !run_bind. simpl.
      destruct (parallel_devices (host s)) as [l|]; [|discriminate].
      destruct (py_index l local_rank); [|discriminate].
      intros Hd. by inversion Hd.
  - intros e Hr. rewrite run_bind.
    rewrite (join_unbound _ e); [reflexivity|].
    revert Hr. unfold root_device. rewrite !run_bind. simpl.
    destruct (parallel_devices (host s)) as [l|].
    + destruct (py_index l local_rank); [discriminate|].
      intros Hr. by inversion Hr.
    + intros Hr. by inversion Hr.
Qed.

(** X16.
    [teardown] undoes what a completed training [setup] entered: each
    wrapped optimizer's [skip_synchronize()] context is left exactly once,
    in the reverse of the order in which [setup] entered them, before the
    final join and the base-class teardown. *)
Theorem setup_then_teardown (tr : Trainer) s s2 d' :
  training tr = true ->
  setup times tr s = (Return tt, s2) ->
  root_device s2 = (Return d', s2) ->
  exists ws,
    optimizers (host s2) = map Raw ws /\
    (exists before, trace s2 = before ++ map skip_synchronize_enter ws) /\
    teardown s2 =
    super ParallelStrategy_teardown
      (State (host s2) None
         (trace s2 ++ ExitStack_exit :: map skip_synchronize_exit (rev ws)
            ++ [hvd_join (join_argument d')])).
Proof.
  intros Htr E Hd'.
  destruct (setup_completed tr s s2 Htr E)
    as (d & h & lm & Hreach & Hlm & Hlr & Hdist & Hs2).
  exists (installed times tr lm h).
  split; [by rewrite Hs2|]. split.
  - rewrite Hs2. simpl. unfold training_calls.
    eexists. rewrite !app_assoc. reflexivity.
  - assert (Hst : _exit_stack s2 =
                  Some {| entered := rev (installed times tr lm h) |})
      by (by rewrite Hs2).
    rewrite (teardown_open _ _ Hst), run_bind.
    rewrite (join_bound _ d').
    + unfold joined. simpl. by rewrite <- app_assoc.
    + revert Hd'. unfold root_device. rewrite !run_bind. simpl.
      destruct (parallel_devices (host s2)) as [l|]; [|discriminate].
      destruct (py_index l local_rank); [|discriminate].
      intros Hd'. by inversion Hd'.
Qed.

(** X17.
    After a completed training [setup], [post_backward] calls
    [synchronize()] on the wrapped optimizers that [setup] installed, one
    after the other in list order, whatever the loss it is given, and stops
    at the first call that raises. *)
Theorem post_backward_after_setup (tr : Trainer) s s2
    (synchronize : host_optimizer -> M unit) (closure_loss : tensor) :
  training tr = true ->
  setup times tr s = (Return tt, s2) ->
  exists ws,
    optimizers (host s2) = map Raw ws /\
    Forall (fun w => is_Some (distributed w)) ws /\
    post_backward synchronize closure_loss s2 =
      for_each (map Raw ws) synchronize s2 /\
    forall pre w post e s3 s4,
      ws = pre ++ w :: post ->
      for_each (map Raw pre) synchronize s2 = (Return tt, s3) ->
      synchronize (Raw w) s3 = (Raise e, s4) ->
      post_backward synchronize closure_loss s2 = (Raise e, s4).
Proof.
  intros Htr E.
  destruct (setup_completed tr s s2 Htr E)
    as (d & h & lm & Hreach & Hlm & Hlr & Hdist & Hs2).
  exists (installed times tr lm h).
  assert (Hopts : optimizers (host s2) = map Raw (installed times tr lm h))
    by (by rewrite Hs2).
  assert (Hrun : post_backward synchronize closure_loss s2 =
                 for_each (map Raw (installed times tr lm h)) synchronize s2).
  { unfold post_backward. rewrite run_bind. simpl. by rewrite Hopts. }
  split; [exact Hopts|]. split; [exact Hdist|]. split; [exact Hrun|].
  intros pre w post e s3 s4 Hsplit Hpre Hw.
  rewrite Hrun, Hsplit, map_app, for_each_app, run_bind, Hpre. simpl.
  by rewrite run_bind, Hw.
Qed.

(** ** Scaling, visit by visit *)

Lemma scaled_lr_succ (k : nat) (lr : num) :
  scaled_lr times (S k) lr = scaled_lr times k (times lr world_size).
Proof.
  unfold scaled_lr. induction k as [|k IH]; [reflexivity|].
  simpl in *. by rewrite IH.
Qed.

Lemma visits_cons_same (l : loc) (ls : list loc) :
  visits l (l :: ls) = S (visits l ls).
Proof. unfold visits. rewrite filter_cons. by destruct (decide (l = l)). Qed.

Lemma visits_cons_other (x l : loc) (ls : list loc) :
  x <> l -> visits l (x :: ls) = visits l ls.
Proof.
  intros Hne. unfold visits. rewrite filter_cons.
  by destruct (decide (x = l)).
Qed.

Lemma scale_group_params store g g' :
  pg_params (the_group (scale_group times store g) g')
  = pg_params (the_group store g').
Proof.
  destruct (decide (g = g')) as [->|Hne].
  - unfold scale_group. destruct (pg_lr (the_group store g')); [|reflexivity].
    unfold the_group at 1. by rewrite lookup_insert_eq.
  - unfold the_group. by rewrite (scale_group_other _ _ _ Hne).
Qed.

Lemma fold_scale_group_params gs store g :
  pg_params (the_group (fold_left (scale_group times) gs store) g)
  = pg_params (the_group store g).
Proof.
  revert store. induction gs as [|x gs IH]; intros store; [reflexivity|].
  simpl. by rewrite IH, scale_group_params.
Qed.

Lemma fold_scale_group_visits gs store g lr :
  pg_lr (the_group store g) = Some lr ->
  pg_lr (the_group (fold_left (scale_group times) gs store) g)
  = Some (scaled_lr times (visits g gs) lr).
Proof.
  revert store lr. induction gs as [|x gs IH]; intros store lr Hlr.
  - exact Hlr.
  - simpl. destruct (decide (x = g)) as [->|Hne].
    + rewrite visits_cons_same, scaled_lr_succ.
      apply IH. by apply scale_group_same.
    + rewrite (visits_cons_other _ _ _ Hne).
      apply IH. unfold the_group. rewrite (scale_group_other _ _ _ Hne).
      exact Hlr.
Qed.

Lemma fold_scale_scheduler_visits ls (sched : gmap loc lr_scheduler) l lrs :
  base_lrs (the_scheduler sched l) = Some lrs ->
  base_lrs (the_scheduler (fold_left (scale_scheduler times) ls sched) l)
  = Some (map (scaled_lr times (visits l ls)) lrs).
Proof.
  revert sched lrs. induction ls as [|x ls IH]; intros sched lrs Hlrs.
  - simpl. rewrite Hlrs. f_equal. symmetry. apply map_id.
  - simpl. destruct (decide (x = l)) as [->|Hne].
    + rewrite (IH _ _ (scale_scheduler_same _ _ _ Hlrs)).
      rewrite visits_cons_same, map_map. f_equal.
      apply map_ext. intros lr. by rewrite scaled_lr_succ.
    + rewrite (visits_cons_other _ _ _ Hne).
      apply IH. unfold the_scheduler.
      rewrite (scale_scheduler_other _ _ _ Hne). exact Hlrs.
Qed.

(** X18.
    A completed training [setup] multiplies a learning rate by the world
    size once for each time the scaling loop reaches its dict: the dict at
    [g], reached [k] times through the optimizers' parameter groups, ends
    with its learning rate multiplied [k] times, so a dict shared by two
    optimizers is scaled twice and one that no optimizer lists keeps its
    rate.  The same holds for each entry of a scheduler's [base_lrs] and
    the number of configs that name the scheduler.  The ["params"] entry of
    every dict is as the base class left it. *)
Theorem setup_scales_once_per_visit (tr : Trainer) s s2 :
  training tr = true ->
  setup times tr s = (Return tt, s2) ->
  exists h,
    ParallelStrategy_setup tr (host s) = (Return tt, h) /\
    Forall (has_lr (group_store h)) (visited_groups h) /\
    (forall g lr,
       pg_lr (the_group (group_store h) g) = Some lr ->
       pg_lr (the_group (group_store (host s2)) g)
       = Some (scaled_lr times (visits g (visited_groups h)) lr)) /\
    (forall g,
       pg_params (the_group (group_store (host s2)) g)
       = pg_params (the_group (group_store h) g)) /\
    (forall l lrs,
       base_lrs (the_scheduler (scheduler_store h) l) = Some lrs ->
       base_lrs (the_scheduler (scheduler_store (host s2)) l)
       = Some (map (scaled_lr times (visits l (visited_schedulers h))) lrs)).
Proof.
  intros Htr E.
  destruct (setup_completed tr s s2 Htr E)
    as (d & h & lm & Hreach & Hlm & Hlr & Hdist & ->).
  exists h. split; [apply Hreach|]. split; [exact Hlr|]. simpl.
  split; [|split].
  - intros g lr. apply fold_scale_group_visits.
  - intros g. apply fold_scale_group_params.
  - intros l lrs. apply fold_scale_scheduler_visits.
Qed.

(** ** What [setup] does with the stack it finds *)

Lemma root_device_host s s' d :
  host s' = host s ->
  root_device s = (Return d, s) -> root_device s' = (Return d, s').
Proof.
  intros Hh. unfold root_device. rewrite !run_bind. simpl. rewrite Hh.
  destruct (parallel_devices (host s)) as [l|]; [|discriminate].
  destruct (py_index l local_rank); [|discriminate].
  intros E. by inversion E.
Qed.

Lemma setup_completed_plain (tr : Trainer) s s2 :
  training tr = false ->
  setup times tr s = (Return tt, s2) ->
  exists d m h,
    root_device s = (Return d, s) /\ model (host s) = Some m /\
    ParallelStrategy_setup tr (host s) = (Return tt, h) /\
    s2 = at_training_test s d h.
Proof.
  intros Htr E.
  destruct (root_device_cases s) as [[d Hd]|Hr].
  - destruct (model (host s)) as [m|] eqn:Hm.
    + destruct (ParallelStrategy_setup tr (host s)) as [[[]|e] h] eqn:Hbase.
      * exists d, m, h. repeat (split; [done|]).
        rewrite (setup_after_base tr s d m h Hd Hm Hbase), Htr in E.
        by inversion E.
      * rewrite (setup_base_raises tr s d m e h Hd Hm Hbase) in E.
        discriminate.
    + rewrite setup_unfold, run_bind, (model_to_device_bound _ _ Hd), Hm in E.
      discriminate.
  - rewrite setup_unfold, run_bind in E.
    destruct Hr as [Hr|Hr];
      rewrite (model_to_device_unbound _ _ Hr) in E; discriminate.
Qed.

Lemma training_calls_stay (tr : Trainer) (lm : module) h :
  Forall (fun e => ~ leaves_context e) (training_calls times tr lm h).
Proof.
  unfold training_calls. repeat apply Forall_app_2.
  - repeat constructor; simpl; tauto.
  - apply Forall_forall. intros e He.
    change (map ?f ?x) with (f <$> x) in He.
    apply list_elem_of_fmap in He as (o & -> & _). simpl. tauto.
  - unfold factory_calls. apply Forall_forall. intros e He.
    apply list_elem_of_join in He as (l & He & Hl).
    change (map ?f ?x) with (f <$> x) in Hl.
    apply list_elem_of_fmap in Hl as (o & -> & _).
    destruct (backend_native o).
    + by apply elem_of_nil in He.
    + apply list_elem_of_singleton in He as ->. simpl. tauto.
  - apply Forall_forall. intros e He.
    change (map ?f ?x) with (f <$> x) in He.
    apply list_elem_of_fmap in He as (o & -> & _). simpl. tauto.
Qed.

Lemma placement_stays (d : device) :
  Forall (fun e => ~ leaves_context e) (placement (num:=num) d).
Proof.
  unfold placement. destruct (String.eqb (dev_type d) "cuda");
    repeat constructor; simpl; tauto.
Qed.

(** X19.
    [setup] never looks at the exit stack it finds.  A completed [setup]
    ends in the same state whatever [_exit_stack] held before, with a stack
    of its own; and none of the calls it makes leaves a context.  So when
    [setup] runs on a strategy whose stack is still open, the contexts
    entered before are dropped without being exited. *)
Theorem setup_discards_open_stack (tr : Trainer) s s2 :
  setup times tr s = (Return tt, s2) ->
  (forall st,
     setup times tr (State (host s) st (trace s)) = (Return tt, s2)) /\
  exists calls,
    trace s2 = trace s ++ calls /\
    Forall (fun e => ~ leaves_context e) calls.
Proof.
  intros E. destruct (training tr) eqn:Htr.
  - destruct (setup_completed tr s s2 Htr E)
      as (d & h & lm & Hreach & Hlm & Hlr & Hdist & Hs2).
    split.
    + intros st. rewrite <- E.
      destruct Hreach as (_ & Hd & [m Hm] & Hbase).
      rewrite (setup_after_base tr s d m h Hd Hm Hbase).
      by rewrite (setup_after_base tr (State (host s) st (trace s)) d m h
                    (root_device_host s (State (host s) st (trace s)) d
                       eq_refl Hd) Hm Hbase).
    + rewrite Hs2. simpl. eexists. split; [reflexivity|].
      apply Forall_app_2; [apply placement_stays|apply training_calls_stay].
  - destruct (setup_completed_plain tr s s2 Htr E)
      as (d & m & h & Hd & Hm & Hbase & Hs2).
    split.
    + intros st. rewrite <- E.
      rewrite (setup_after_base tr s d m h Hd Hm Hbase).
      by rewrite (setup_after_base tr (State (host s) st (trace s)) d m h
                    (root_device_host s (State (host s) st (trace s)) d
                       eq_refl Hd) Hm Hbase).
    + rewrite Hs2. simpl. eexists. split; [reflexivity|].
      apply Forall_app_2; [apply placement_stays|].
      repeat constructor; simpl; tauto.
Qed.

(** X20.
    The three ways [setup] can fail before it creates the exit stack.  An
    error of [root_device] comes out with nothing done; a missing model
    raises [AssertionError] after the device call, before the base class
    is asked; and an error of the base-class setup comes out with the model
    placed and the base class's state in place.  In each case
    [_exit_stack] is what it was: a failed [setup] on a fresh strategy
    leaves [None] there. *)
Theorem setup_fails_before_stack (tr : Trainer) s :
  (forall e, root_device s = (Raise e, s) ->
     setup times tr s = (Raise e, s)) /\
  (forall d, root_device s = (Return d, s) ->
     (model (host s) = None ->
        setup times tr s =
        (Raise AssertionError,
         State (host s) (_exit_stack s)
           (trace s ++ if String.eqb (dev_type d) "cuda"
                       then [torch_cuda_set_device d] else []))) /\
     (forall m e h,
        model (host s) = Some m ->
        ParallelStrategy_setup tr (host s) = (Raise e, h) ->
        setup times tr s =
        (Raise e, State h (_exit_stack s) (trace s ++ placement d)))).
Proof.
  split.
  - intros e Hr.
    by rewrite setup_unfold, run_bind, (model_to_device_unbound _ _ Hr).
  - intros d Hd. split.
    + intros Hm.
      by rewrite setup_unfold, run_bind, (model_to_device_bound _ _ Hd), Hm.
    + intros m e h Hm Hbase. by apply (setup_base_raises tr s d m e h).
Qed.

End Proofs.

(** * The statements on the concrete world *)

Section Concrete.

Import Demo.

Lemma horovod_factory (size rank local : Z) (peers : list tensor) :
  HorovodFactory (B := horovod size rank local peers).
Proof.
  split; intros opt n named; [reflexivity|]. simpl. eauto.
Qed.

Lemma subgroup_rejected_witness :
  reduce (B := worker) (PyTensor (scalar 2)) (Some 7%nat) (OpStr "mean")
    configured
    = (Raise (ValueError allreduce_subcommunicator), configured) /\
  all_gather (B := worker) (H := trainer_host) (scalar 2) (Some 7%nat) false
    configured
    = (Raise (ValueError allgather_subcommunicator), configured).
Proof.
  apply (subgroup_rejected_before_any_collective (B := worker)
           (H := trainer_host) (Some 7%nat)); discriminate.
Defined.

Lemma group_checks_differ_witness :
  reduce (B := worker) (PyTensor (scalar 2)) (Some 0%nat) (OpStr "mean")
    configured
    = (Raise (ValueError allreduce_subcommunicator), configured) /\
  fst (all_gather (B := worker) (H := trainer_host) (scalar 2) (Some 0%nat)
         false configured)
    <> Raise (ValueError allgather_subcommunicator).
Proof.
  destruct (group_checks_differ (B := worker) (H := trainer_host)
              (PyTensor (scalar 2)) (scalar 2) (OpStr "mean") false configured)
    as (_ & Hreduce & _ & Hgather).
  split; [apply Hreduce; discriminate|apply Hgather].
Defined.

(** C4 as stated fails: with a group set, a recognised [reduce_op] does not
    keep [reduce] from raising the invalid-configuration error. *)
Lemma reduce_raises_on_recognized_op :
  OpStr "mean" ∈ recognized_tokens /\
  reduce (B := worker) (PyTensor (scalar 2)) (Some 7%nat) (OpStr "mean")
    configured
    = (Raise (ValueError allreduce_subcommunicator), configured).
Proof.
  split; [|reflexivity].
  unfold recognized_tokens, averaging_tokens.
  apply elem_of_app. left. do 2 apply list_elem_of_further.
  apply list_elem_of_here.
Qed.

Lemma reduce_op_recognition_witness :
  (exists msg,
     fst (reduce (B := worker) (PyTensor (scalar 2)) None (OpStr "median")
            configured) = Raise (ValueError msg)) /\
  reduce (B := worker) (PyTensor (scalar 2)) None (OpStr "sum") configured
    = (join (B := worker) ;;
       call_allreduce (B := worker) (PyTensor (scalar 2)) Sum) configured.
Proof.
  destruct (reduce_op_recognition (B := worker) (PyTensor (scalar 2))
              (OpStr "median") configured) as ([_ Hraise] & _).
  destruct (reduce_op_recognition (B := worker) (PyTensor (scalar 2))
              (OpStr "sum") configured) as (_ & _ & _ & Hsum).
  split.
  - apply Hraise. unfold recognized_tokens, averaging_tokens, summing_tokens.
    intros Hin. repeat (apply elem_of_cons in Hin as [Hin|Hin];
                        [discriminate Hin|]).
    by apply elem_of_nil in Hin.
  - apply Hsum. apply list_elem_of_here.
Defined.

(** C5 at the failing input: the integer 3 is joined on and handed to
    [hvd.allreduce], which rejects it; it does not come back unchanged. *)
Lemma reduce_defers_to_backend_witness :
  reduce (B := worker) (PyInt 3) None (OpStr "mean") configured
    = (Raise CollaboratorError,
       State (host configured) None
         [hvd_join (Some 1); hvd_allreduce (PyInt 3) Average]).
Proof.
  apply (reduce_defers_to_backend (B := worker) (PyInt 3) (OpStr "mean")
           configured (cuda 1)); [reflexivity|].
  apply elem_of_app. left.
  do 2 apply list_elem_of_further. apply list_elem_of_here.
Defined.

(** C2 as stated fails: on a strategy constructed with the default
    arguments, [teardown] raises [AssertionError] and issues no join. *)
Lemma teardown_raises_without_devices :
  teardown (B := worker) (H := trainer_host) constructed
    = (Raise AssertionError, constructed) /\
  _exit_stack constructed = None /\
  trace constructed = [].
Proof. repeat split. Qed.

Lemma teardown_without_setup_witness :
  teardown (B := worker) (H := trainer_host) configured
    = (Return tt, State (host configured) None [hvd_join (Some 1)]).
Proof.
  rewrite (teardown_without_setup (B := worker) (H := trainer_host)
             configured (cuda 1) eq_refl eq_refl).
  reflexivity.
Defined.

Lemma exit_stack_lifecycle_witness :
  is_Some (_exit_stack
             (snd (setup (B := worker) (H := trainer_host) Qtimes validate
                     configured))) /\
  is_Some (_exit_stack
             (snd (setup (B := worker) (H := trainer_host) Qtimes fit
                     configured))).
Proof.
  split.
  - apply (exit_stack_lifecycle (B := worker) (H := trainer_host) Qtimes
             validate configured).
    vm_compute. reflexivity.
  - apply (exit_stack_lifecycle (B := worker) (H := trainer_host) Qtimes
             fit configured).
    vm_compute. reflexivity.
Defined.

(** C6 as stated fails: with the same optimizer listed twice, one run of
    the wrap step calls the factory twice on it and returns two wrappers of
    the one base optimizer; and this is what a training [setup] does on a
    strategy that lists the optimizer twice. *)
Lemma repeated_optimizer_wrapped_twice :
  backend_native sgd = false /\
  (exists w,
     _wrap_optimizers (B := worker) [sgd; sgd] 1 configured
       = (Return [w; w],
          State (host configured) None
            [hvd_DistributedOptimizer sgd 1 [("weight", 0%nat); ("bias", 1%nat)];
             hvd_DistributedOptimizer sgd 1
               [("weight", 0%nat); ("bias", 1%nat)]]) /\
     w <> sgd) /\
  fst (setup (B := worker) (H := trainer_host) Qtimes fit repeated_optimizer)
    = Return tt /\
  wrapped_bases
    (trace (snd (setup (B := worker) (H := trainer_host) Qtimes fit
                   repeated_optimizer)))
    = [sgd; sgd].
Proof.
  split; [vm_compute; reflexivity|]. split.
  - eexists. split; [vm_compute; reflexivity|]. discriminate.
  - split; vm_compute; reflexivity.
Qed.

Lemma wrap_optimizers_idempotent_witness :
  let once := _wrap_optimizers (B := worker) [sgd] 1 configured in
  exists w, fst once = Return [w] /\
    _wrap_optimizers (B := worker) [w] 1 (snd once) = (Return [w], snd once) /\
    exists calls,
      trace (snd once) = trace configured ++ calls /\
      NoDup (wrapped_bases calls).
Proof.
  simpl. eexists. split; [vm_compute; reflexivity|].
  pose proof (wrap_optimizers_idempotent (B := worker)
                (horovod_factory 4 1 1 []) [sgd] 1 configured) as [_ Hrun].
  pose proof (Hrun _ _ ltac:(vm_compute; reflexivity))
    as (_ & Hagain & _ & calls & Htrace & _ & Hnd).
  split; [exact Hagain|].
  exists calls. split; [exact Htrace|].
  apply Hnd. apply NoDup_singleton.
Defined.

(** C1 as stated fails: with the same optimizer listed twice and four
    processes, [setup] completes in training mode and leaves the learning
    rate 0.1 of its parameter group at 1.6, not at 0.4. *)
Lemma repeated_optimizer_scaled_twice :
  training fit = true /\
  world_size (B := worker) = 4 /\
  fst (setup (B := worker) (H := trainer_host) Qtimes fit repeated_optimizer)
    = Return tt /\
  pg_lr (the_group (group_store (host repeated_optimizer)) 1%nat)
    = Some (1 # 10)%Q /\
  pg_lr (the_group
           (group_store
              (host (snd (setup (B := worker) (H := trainer_host) Qtimes fit
                            repeated_optimizer)))) 1%nat)
    = Some (8 # 5)%Q /\
  Some (8 # 5)%Q <> Some (Qtimes (1 # 10) (world_size (B := worker))).
Proof. repeat split; vm_compute; (reflexivity || discriminate). Qed.

Lemma setup_scales_learning_rates_witness :
  fst (setup (B := worker) (H := trainer_host) Qtimes fit configured)
    = Return tt /\
  pg_lr (the_group
           (group_store
              (host (snd (setup (B := worker) (H := trainer_host) Qtimes fit
                            configured)))) 1%nat)
    = Some (2 # 5)%Q.
Proof.
  split; [vm_compute; reflexivity|].
  destruct (setup_scales_learning_rates (B := worker) (H := trainer_host)
              Qtimes fit configured (host configured) eq_refl eq_refl
              (NoDup_singleton 1%nat)) as [Hscaled _].
  destruct (Hscaled
              (snd (setup (B := worker) (H := trainer_host) Qtimes fit
                      configured))) as [Hlr _].
  - vm_compute. reflexivity.
  - apply (Hlr 1%nat (1 # 10)%Q); [apply list_elem_of_here|reflexivity].
Defined.

(** C7 as stated fails: with the same scheduler configured twice and four
    processes, [setup] completes and leaves its base rate 0.1 at 1.6. *)
Lemma repeated_scheduler_scaled_twice :
  training fit = true /\
  world_size (B := worker) = 4 /\
  fst (setup (B := worker) (H := trainer_host) Qtimes fit repeated_scheduler)
    = Return tt /\
  base_lrs (the_scheduler (scheduler_store (host repeated_scheduler)) 10%nat)
    = Some [(1 # 10)%Q] /\
  base_lrs (the_scheduler
              (scheduler_store
                 (host (snd (setup (B := worker) (H := trainer_host) Qtimes
                               fit repeated_scheduler)))) 10%nat)
    = Some [(8 # 5)%Q] /\
  Some [(8 # 5)%Q]
    <> Some (map (fun lr => Qtimes lr (world_size (B := worker))) [(1 # 10)%Q]).
Proof. repeat split; vm_compute; (reflexivity || discriminate). Qed.

Lemma setup_scales_base_lrs_witness :
  fst (setup (B := worker) (H := trainer_host) Qtimes fit configured)
    = Return tt /\
  base_lrs (the_scheduler
              (scheduler_store
                 (host (snd (setup (B := worker) (H := trainer_host) Qtimes
                               fit configured)))) 10%nat)
    = Some [(2 # 5)%Q].
Proof.
  split; [vm_compute; reflexivity|].
  destruct (setup_scales_base_lrs (B := worker) (H := trainer_host)
              Qtimes fit configured (host configured) eq_refl eq_refl
              (NoDup_singleton 10%nat)) as [Hscaled _].
  destruct (Hscaled
              (snd (setup (B := worker) (H := trainer_host) Qtimes fit
                      configured))) as [Hlrs _].
  - vm_compute. reflexivity.
  - apply (Hlrs 10%nat [(1 # 10)%Q]); [apply list_elem_of_here|reflexivity].
Defined.

Lemma all_gather_reshapes_scalars_witness :
  fst (all_gather (B := gatherer) (H := trainer_host) (scalar (5 # 2)) None
         false configured)
    = Return (Tensor [3%nat] [(1 # 2)%Q; (5 # 2)%Q; (3 # 2)%Q]).
Proof.
  destruct (all_gather_reshapes_scalars (B := gatherer) (H := trainer_host)
              None false configured (cuda 1) (or_introl eq_refl) eq_refl)
    as (_ & _ & Hworld).
  destruct (Hworld held 1%nat (scalar (5 # 2))) as (out & E & -> & _).
  - reflexivity.
  - repeat constructor.
  - reflexivity.
  - intros x. reflexivity.
  - exact E.
Defined.

(** ** More of the adapter, at concrete inputs *)

Import Scenarios.

Lemma root_device_indexing_witness :
  root_device (B := worker) constructed = (Raise AssertionError, constructed) /\
  (exists d, root_device (B := worker) configured = (Return d, configured)) /\
  root_device (B := stray) configured = (Raise IndexError, configured).
Proof.
  split; [|split].
  - pose proof (root_device_indexing (B := worker) constructed) as [Hnone _].
    exact (Hnone eq_refl).
  - pose proof (root_device_indexing (B := worker) configured) as [_ Hl].
    pose proof (Hl [cuda 0; cuda 1] eq_refl) as Hn. cbv zeta in Hn.
    destruct Hn as [Hin _].
    destruct Hin as (d & _ & Hd);
      [vm_compute; split; [discriminate|reflexivity]|].
    exists d. exact Hd.
  - pose proof (root_device_indexing (B := stray) configured) as [_ Hl].
    pose proof (Hl [cuda 0; cuda 1] eq_refl) as Hn. cbv zeta in Hn.
    destruct Hn as [_ Hout].
    apply Hout. vm_compute. intros [_ Hhi]. discriminate Hhi.
Defined.

Lemma model_to_device_effects_witness :
  model_to_device (B := worker) configured
    = (Return tt,
       State (host configured) None
         [torch_cuda_set_device (cuda 1); model_to (cuda 1)]) /\
  model_to_device (B := worker) without_model
    = (Raise AssertionError,
       State (host without_model) None [torch_cuda_set_device (cuda 1)]) /\
  model_to_device (B := worker) constructed
    = (Raise AssertionError, constructed).
Proof.
  split; [|split].
  - pose proof (model_to_device_effects (B := worker) configured) as [_ Hd].
    pose proof (Hd (cuda 1) eq_refl) as [Hm _]. exact (Hm net eq_refl).
  - pose proof (model_to_device_effects (B := worker) without_model)
      as [_ Hd].
    pose proof (Hd (cuda 1) eq_refl) as [_ Hm]. exact (Hm eq_refl).
  - pose proof (model_to_device_effects (B := worker) constructed) as [He _].
    exact (He AssertionError eq_refl).
Defined.

Lemma barrier_gated_witness :
  barrier (B := worker) false constructed = (Return tt, constructed) /\
  barrier (B := worker) true constructed
    = (Raise AssertionError, constructed) /\
  barrier (B := worker) true configured
    = (Return tt, State (host configured) None [hvd_join (Some 1)]).
Proof.
  pose proof (barrier_gated (B := worker) false constructed)
    as (Hoff & _ & Hraise & _).
  pose proof (barrier_gated (B := worker) true configured)
    as (_ & Hon & _).
  split; [exact Hoff|]. split.
  - exact (Hraise AssertionError eq_refl).
  - exact (Hon (cuda 1) eq_refl).
Defined.

Lemma setup_not_training_witness :
  setup (B := worker) (H := trainer_host) Qtimes validate configured
    = (Return tt,
       State (host configured) (Some {| entered := [] |})
         [torch_cuda_set_device (cuda 1); model_to (cuda 1);
          ExitStack_enter]).
Proof.
  pose proof (setup_not_training (B := worker) (H := trainer_host) Qtimes
                validate configured eq_refl) as [Hrun _].
  exact (Hrun (cuda 1) net (host configured) eq_refl eq_refl eq_refl).
Defined.

Lemma setup_completes_iff_ready_witness :
  (exists s2,
     setup (B := worker) (H := trainer_host) Qtimes fit configured
       = (Return tt, s2)) /\
  ~ (exists d h,
       reaches_training (B := worker) (H := trainer_host) fit without_lr d h /\
       ready_to_train h = true).
Proof.
  split.
  - apply (setup_completes_iff_ready (B := worker) (H := trainer_host)
             Qtimes (horovod_factory 4 1 1 []) fit configured eq_refl).
    exists (cuda 1), (host configured).
    split; [|vm_compute; reflexivity].
    split; [reflexivity|]. split; [reflexivity|]. split; [by eexists|].
    reflexivity.
  - intros Hready.
    apply (setup_completes_iff_ready (B := worker) (H := trainer_host)
             Qtimes (horovod_factory 4 1 1 []) fit without_lr eq_refl)
      in Hready as [s2 E].
    vm_compute in E. discriminate E.
Defined.

Lemma setup_installs_wrapped_optimizers_witness :
  let s2 := snd (setup (B := worker) (H := trainer_host) Qtimes fit
                   configured) in
  exists ws,
    optimizers (host s2) = map Raw ws /\
    length ws = 1%nat /\
    Forall (fun w => is_Some (distributed w)) ws /\
    _exit_stack s2 = Some {| entered := rev ws |}.
Proof.
  intros s2.
  assert (E : setup (B := worker) (H := trainer_host) Qtimes fit configured
              = (Return tt, s2)) by (vm_compute; reflexivity).
  pose proof (setup_installs_wrapped_optimizers (B := worker)
                (H := trainer_host) Qtimes fit configured s2 eq_refl E)
    as (d & h & lm & _ & _ & Hopts & _ & _ & Hdist & Hstack).
  exists (installed (B := worker) Qtimes fit lm h).
  split; [exact Hopts|]. split; [|by split].
  apply (f_equal (@length _)) in Hopts.
  rewrite length_map in Hopts. rewrite <- Hopts. vm_compute. reflexivity.
Defined.

Lemma setup_call_order_witness :
  let s2 := snd (setup (B := worker) (H := trainer_host) Qtimes fit
                   configured) in
  exists d (h : host_state (num:=Q)) lm,
    trace s2 =
      trace configured ++ placement d
      ++ [ExitStack_enter; hvd_broadcast_parameters 0]
      ++ map (fun opt => hvd_broadcast_optimizer_state opt 0) (unwrapped h)
      ++ factory_calls (group_store (host s2)) lm
           (accumulate_grad_batches fit) (unwrapped h)
      ++ map skip_synchronize_enter
           (map _unpack_lightning_optimizer (optimizers (host s2))).
Proof.
  intros s2.
  assert (E : setup (B := worker) (H := trainer_host) Qtimes fit configured
              = (Return tt, s2)) by (vm_compute; reflexivity).
  pose proof (setup_call_order (B := worker) (H := trainer_host) Qtimes fit
                configured s2 eq_refl E)
    as (d & h & lm & _ & _ & Htrace).
  exists d, h, lm. exact Htrace.
Defined.

Lemma setup_missing_lr_witness :
  setup (B := worker) (H := trainer_host) Qtimes fit without_lr
    = (Raise (KeyError "lr"),
       State (host without_lr) (Some {| entered := [] |})
         [torch_cuda_set_device (cuda 1); model_to (cuda 1);
          ExitStack_enter]).
Proof.
  rewrite (setup_missing_lr (B := worker) (H := trainer_host) Qtimes fit
             without_lr (cuda 1) (host without_lr) [] 1%nat []).
  - vm_compute. reflexivity.
  - split; [reflexivity|]. split; [reflexivity|]. split; [by eexists|].
    reflexivity.
  - reflexivity.
  - constructor.
  - vm_compute. reflexivity.
Defined.

Lemma setup_without_module_witness :
  fst (setup (B := worker) (H := trainer_host) Qtimes fit without_module)
    = Raise AssertionError /\
  pg_lr (the_group
           (group_store
              (host (snd (setup (B := worker) (H := trainer_host) Qtimes fit
                            without_module)))) 1%nat)
    = Some (2 # 5)%Q.
Proof.
  rewrite (setup_without_module (B := worker) (H := trainer_host) Qtimes fit
             without_module (cuda 1) (host without_module)).
  - split; [reflexivity|vm_compute; reflexivity].
  - split; [reflexivity|]. split; [reflexivity|]. split; [by eexists|].
    reflexivity.
  - repeat constructor. vm_compute. by eexists.
  - reflexivity.
Defined.

Lemma setup_with_mistaken_optimizer_witness :
  let h := host with_lookalike in
  lookalike ∈ installed (B := worker) Qtimes fit net h /\
  exists pre w post,
    installed (B := worker) Qtimes fit net h = pre ++ w :: post /\
    Forall (fun w => is_Some (distributed w)) pre /\
    distributed w = None /\
    setup (B := worker) (H := trainer_host) Qtimes fit with_lookalike =
    (Raise (AttributeError "skip_synchronize"),
     State (with_optimizers
              (map Raw (installed (B := worker) Qtimes fit net h))
              (scaled (B := worker) Qtimes h))
       (Some {| entered := rev pre |})
       ([torch_cuda_set_device (cuda 1); model_to (cuda 1);
         ExitStack_enter; hvd_broadcast_parameters 0;
         hvd_broadcast_optimizer_state sgd 0;
         hvd_broadcast_optimizer_state lookalike 0;
         hvd_DistributedOptimizer sgd 1 [("weight", 0%nat); ("bias", 1%nat)]]
        ++ map skip_synchronize_enter pre)).
Proof.
  apply (setup_with_mistaken_optimizer (B := worker) (H := trainer_host)
           Qtimes fit with_lookalike (cuda 1) (host with_lookalike) net
           lookalike).
  - split; [reflexivity|]. split; [reflexivity|]. split; [by eexists|].
    reflexivity.
  - repeat constructor; vm_compute; by eexists.
  - reflexivity.
  - apply list_elem_of_further, list_elem_of_here.
  - vm_compute. reflexivity.
  - reflexivity.
Defined.

Lemma teardown_exits_latest_first_witness :
  teardown (B := worker) (H := trainer_host) in_training
    = (Return tt,
       State (host in_training) None
         [ExitStack_exit; skip_synchronize_exit hvd_adam;
          skip_synchronize_exit hvd_sgd; hvd_join (Some 1)]) /\
  teardown (B := stray) (H := trainer_host) in_training
    = (Raise IndexError,
       State (host in_training) None
         [ExitStack_exit; skip_synchronize_exit hvd_adam;
          skip_synchronize_exit hvd_sgd]).
Proof.
  split.
  - pose proof (teardown_exits_latest_first (B := worker)
                  (H := trainer_host) in_training _ eq_refl) as [Hd _].
    rewrite (Hd (cuda 1) eq_refl). reflexivity.
  - pose proof (teardown_exits_latest_first (B := stray)
                  (H := trainer_host) in_training _ eq_refl) as [_ He].
    rewrite (He IndexError eq_refl). reflexivity.
Defined.

Lemma setup_then_teardown_witness :
  let s2 := snd (setup (B := worker) (H := trainer_host) Qtimes fit
                   configured) in
  exists ws,
    optimizers (host s2) = map Raw ws /\
    (exists before, trace s2 = before ++ map skip_synchronize_enter ws) /\
    teardown (B := worker) (H := trainer_host) s2 =
    (Return tt,
     State (host s2) None
       (trace s2 ++ ExitStack_exit :: map skip_synchronize_exit (rev ws)
          ++ [hvd_join (Some 1)])).
Proof.
  intros s2.
  assert (E : setup (B := worker) (H := trainer_host) Qtimes fit configured
              = (Return tt, s2)) by (vm_compute; reflexivity).
  assert (Hd : root_device (B := worker) s2 = (Return (cuda 1), s2))
    by (vm_compute; reflexivity).
  pose proof (setup_then_teardown (B := worker) (H := trainer_host) Qtimes
                fit configured s2 (cuda 1) eq_refl E Hd)
    as (ws & Hopts & Hbefore & Hrun).
  exists ws. split; [exact Hopts|]. split; [exact Hbefore|].
  rewrite Hrun. reflexivity.
Defined.

Lemma post_backward_after_setup_witness :
  let s2 := snd (setup (B := worker) (H := trainer_host) Qtimes fit
                   configured) in
  exists ws,
    optimizers (host s2) = map Raw ws /\
    Forall (fun w => is_Some (distributed w)) ws /\
    post_backward hvd_synchronize (scalar 2) s2 =
      for_each (map Raw ws) hvd_synchronize s2.
Proof.
  intros s2.
  assert (E : setup (B := worker) (H := trainer_host) Qtimes fit configured
              = (Return tt, s2)) by (vm_compute; reflexivity).
  pose proof (post_backward_after_setup (B := worker) (H := trainer_host)
                Qtimes fit configured s2 hvd_synchronize (scalar 2) eq_refl E)
    as (ws & Hopts & Hdist & Hrun & _).
  exists ws. by repeat split.
Defined.

Lemma setup_scales_once_per_visit_witness :
  let s2 := snd (setup (B := worker) (H := trainer_host) Qtimes fit
                   repeated_optimizer) in
  pg_lr (the_group (group_store (host s2)) 1%nat)
    = Some (scaled_lr (B := worker) Qtimes 2 (1 # 10)%Q).
Proof.
  intros s2.
  assert (E : setup (B := worker) (H := trainer_host) Qtimes fit
                repeated_optimizer = (Return tt, s2))
    by (vm_compute; reflexivity).
  pose proof (setup_scales_once_per_visit (B := worker) (H := trainer_host)
                Qtimes fit repeated_optimizer s2 eq_refl E)
    as (h & Hbase & _ & Hlr & _).
  inversion Hbase. subst h.
  exact (Hlr 1%nat (1 # 10)%Q eq_refl).
Defined.

Lemma setup_discards_open_stack_witness :
  let s2 := snd (setup (B := worker) (H := trainer_host) Qtimes fit
                   in_training) in
  setup (B := worker) (H := trainer_host) Qtimes fit
    (State (host in_training) None (trace in_training)) = (Return tt, s2) /\
  exists calls,
    trace s2 = trace in_training ++ calls /\
    Forall (fun e => ~ leaves_context e) calls.
Proof.
  intros s2.
  assert (E : setup (B := worker) (H := trainer_host) Qtimes fit in_training
              = (Return tt, s2)) by (vm_compute; reflexivity).
  pose proof (setup_discards_open_stack (B := worker) (H := trainer_host)
                Qtimes fit in_training s2 E) as [Hany Hcalls].
  split; [exact (Hany None)|exact Hcalls].
Defined.

Lemma setup_fails_before_stack_witness :
  setup (B := worker) (H := trainer_host) Qtimes fit constructed
    = (Raise AssertionError, constructed) /\
  setup (B := worker) (H := trainer_host) Qtimes fit without_model
    = (Raise AssertionError,
       State (host without_model) None [torch_cuda_set_device (cuda 1)]) /\
  setup (B := worker) (H := failing_host) Qtimes fit configured
    = (Raise RuntimeError,
       State (host configured) None
         [torch_cuda_set_device (cuda 1); model_to (cuda 1)]).
Proof.
  split; [|split].
  - pose proof (setup_fails_before_stack (B := worker) (H := trainer_host)
                  Qtimes fit constructed) as [He _].
    exact (He AssertionError eq_refl).
  - pose proof (setup_fails_before_stack (B := worker) (H := trainer_host)
                  Qtimes fit without_model) as [_ Hd].
    pose proof (Hd (cuda 1) eq_refl) as [Hm _]. exact (Hm eq_refl).
  - pose proof (setup_fails_before_stack (B := worker) (H := failing_host)
                  Qtimes fit configured) as [_ Hd].
    pose proof (Hd (cuda 1) eq_refl) as [_ Hb].
    exact (Hb net RuntimeError (host configured) eq_refl eq_refl).
Defined.

End Concrete.
